(** * db_explorer: a generic HTTP facade over a relational database

    A shallow embedding of [db_explorer.go].  The handler [ServeHTTP] and its
    six sub-handlers are transcribed function by function.  The three things
    the program talks to are modelled by what the handler can observe of them:

    - the [http.ResponseWriter] is a record of the header map, the status
      code passed to [WriteHeader] (if any) and the chunks written so far;
    - the [*sql.DB] handle is an interface ([Database]) answering each
      statement from a state of its own; every call is also appended to a
      trace, so that "which statements were sent, in which order, with which
      bound arguments" is a property of the run;
    - the order in which [range] walks a Go map is an interface ([MapRange])
      constrained only to enumerate the map's entries. *)

From Stdlib Require Import Floats.PrimFloat Strings.Ascii Uint63.
From stdpp Require Import gmap strings list fin_maps sorting pretty.

(** ** Go values *)

(** A slice is either [nil] or a (possibly empty) sequence; [append] to a nil
    slice allocates.  The distinction is visible on the wire: encoding/json
    writes a nil slice as [null] and an empty one as [[]]. *)
Inductive slice (A : Type) : Type :=
  | nil_slice
  | mk_slice (elems : list A).
Arguments nil_slice {A}.
Arguments mk_slice {A} elems.

Definition elems {A} (s : slice A) : list A :=
  match s with nil_slice => [] | mk_slice l => l end.
Definition len {A} (s : slice A) : nat := length (elems s).
Definition append {A} (s : slice A) (x : A) : slice A := mk_slice (elems s ++ [x]).
Definition make {A} : slice A := mk_slice [].

(** A slice of one element type seen as a slice of another, e.g. a
    [[]string] stored in an [interface{}]. *)
Definition slice_fmap {A B} (f : A → B) (s : slice A) : slice B :=
  match s with nil_slice => nil_slice | mk_slice l => mk_slice (f <$> l) end.

(** The dynamic values ([interface{}]) that flow through the handlers: what
    the driver's generic decode produces (int64, float64, bool, string,
    []byte, nil), what encoding/json stores for a decoded document (float64,
    bool, string, nil, []interface{}, map[string]interface{}), and the slices
    and maps the handlers build for their envelopes. *)
#[warnings="-register-all"]
Inductive any : Type :=
  | GoNil
  | GoBool (b : bool)
  | GoInt64 (z : Z)
  | GoFloat64 (f : float)
  | GoString (s : string)
  | GoBytes (s : string)
  | GoSlice (s : slice any)
  | GoMap (m : gmap string any).

(** Go's [error]: the sentinel [sql.ErrNoRows], which the code compares by
    identity, and every other error, known by its text. *)
Inductive error : Type :=
  | ErrNoRows
  | errorString (msg : string).

Definition Error (e : error) : string :=
  match e with
  | ErrNoRows => "sql: no rows in result set"
  | errorString msg => msg
  end.

Definition is_ErrNoRows (e : error) : bool :=
  match e with ErrNoRows => true | errorString _ => false end.

(** The values [json.Marshal] accepts: all but a float64 that is NaN or
    infinite, at any depth (an [UnsupportedValueError]). *)
Fixpoint encodable (v : any) : bool :=
  match v with
  | GoFloat64 f => is_finite f
  | GoSlice nil_slice => true
  | GoSlice (mk_slice l) => forallb encodable l
  | GoMap m => map_fold (λ _ v ok, encodable v && ok) true m
  | _ => true
  end.

(** ** Package strings *)

Module Strings.

(** [strings.Trim(s, cutset)] for a one-byte cutset. *)
Fixpoint TrimLeft (s : string) (c : ascii) : string :=
  match s with
  | String a s' => if Ascii.eqb a c then TrimLeft s' c else s
  | EmptyString => EmptyString
  end.

Fixpoint TrimRight (s : string) (c : ascii) : string :=
  match s with
  | EmptyString => EmptyString
  | String a s' =>
      match TrimRight s' c with
      | EmptyString => if Ascii.eqb a c then EmptyString else String a EmptyString
      | t => String a t
      end
  end.

Definition Trim (s : string) (c : ascii) : string := TrimRight (TrimLeft s c) c.

(** [strings.Split(s, sep)] for a one-byte separator: one more piece than
    there are separators, so the empty string splits into [[""]]. *)
Fixpoint Split (s : string) (sep : ascii) : list string :=
  match s with
  | EmptyString => [EmptyString]
  | String a s' =>
      if Ascii.eqb a sep then EmptyString :: Split s' sep
      else match Split s' sep with
           | piece :: pieces => String a piece :: pieces
           | [] => [String a EmptyString]
           end
  end.

Fixpoint Join (l : list string) (sep : string) : string :=
  match l with
  | [] => ""
  | [x] => x
  | x :: rest => x +:+ sep +:+ Join rest sep
  end.

End Strings.

(** ** Package sort *)

(** The strings of a list in increasing order.  Go compares strings byte by
    byte, which is [String.le]; the order is total and antisymmetric, so a
    list has one increasing arrangement, whatever the algorithm that finds it
    (see [increasing_unique] below). *)
Definition increasing (l : list string) : list string := merge_sort String.le l.

(** [sort.Strings(x)]: sorts the slice in place. *)
Definition sort_Strings (x : slice string) : slice string :=
  match x with
  | nil_slice => nil_slice
  | mk_slice l => mk_slice (increasing l)
  end.

(** ** Package net/http *)

Definition StatusOK : nat := 200.
Definition StatusBadRequest : nat := 400.
Definition StatusNotFound : nat := 404.
Definition StatusMethodNotAllowed : nat := 405.
Definition StatusInternalServerError : nat := 500.
Definition StatusNotImplemented : nat := 501.

Definition MethodGet : string := "GET".
Definition MethodPost : string := "POST".
Definition MethodPut : string := "PUT".
Definition MethodDelete : string := "DELETE".

(** What has been written to the response body: raw bytes, or the document
    that [json.Encoder.Encode] produced for a value (its JSON text and the
    newline the encoder appends). *)
Inductive chunk : Type :=
  | Bytes (s : string)
  | Encoded (v : any).

Record ResponseWriter : Type := mkResponseWriter {
  Header : gmap string (list string);
  wroteHeader : option nat;
  written : list chunk
}.

(** A fresh writer, as the server hands it to the handler. *)
Definition NewResponseWriter : ResponseWriter :=
  {| Header := ∅; wroteHeader := None; written := [] |}.

(** The status line the client receives: the code given to [WriteHeader], or
    200 when the handler never set one. *)
Definition StatusCode (w : ResponseWriter) : nat := default StatusOK (wroteHeader w).

Definition Header_Set (k v : string) (w : ResponseWriter) : ResponseWriter :=
  {| Header := <[k := [v]]> (Header w); wroteHeader := wroteHeader w; written := written w |}.

Definition Header_Del (k : string) (w : ResponseWriter) : ResponseWriter :=
  {| Header := delete k (Header w); wroteHeader := wroteHeader w; written := written w |}.

(** Only the first [WriteHeader] counts. *)
Definition WriteHeader (code : nat) (w : ResponseWriter) : ResponseWriter :=
  {| Header := Header w;
     wroteHeader := Some (default code (wroteHeader w));
     written := written w |}.

(** A write before any [WriteHeader] sends the implicit 200. *)
Definition Write (c : chunk) (w : ResponseWriter) : ResponseWriter :=
  {| Header := Header w;
     wroteHeader := Some (default StatusOK (wroteHeader w));
     written := written w ++ [c] |}.

Definition newline : string := String (ascii_of_nat 10) EmptyString.

(** [fmt.Fprintln(w, s)] *)
Definition Fprintln (s : string) (w : ResponseWriter) : ResponseWriter :=
  Write (Bytes (s +:+ newline)) w.

(** [http.Error(w, error, code)] *)
Definition http_Error (msg : string) (code : nat) (w : ResponseWriter) : ResponseWriter :=
  Fprintln msg
    (WriteHeader code
       (Header_Set "X-Content-Type-Options" "nosniff"
          (Header_Set "Content-Type" "text/plain; charset=utf-8"
             (Header_Del "Content-Length" w)))).

(** [json.NewEncoder(w).Encode(v)]: the document is marshalled first and
    written in one piece; when marshalling fails nothing is written.  The
    handlers drop the error it returns. *)
Definition Encode (v : any) (w : ResponseWriter) : ResponseWriter :=
  if encodable v then Write (Encoded v) w else w.

(** [url.Values] and its [Get]: the first value of the key, or [""]. *)
Definition Values_Get (q : gmap string (list string)) (key : string) : string :=
  match q !! key with
  | Some (v :: _) => v
  | _ => ""
  end.

(** What [json.NewDecoder(r.Body).Decode] meets on the body.  The decoder
    reads one JSON value and leaves what follows it unread.  Either it
    cannot read a value (the text is not well-formed JSON, there is no input
    at all, a number does not fit a float64), or it reads one, given here in
    the form encoding/json stores a JSON value into an [interface{}]: nil,
    bool, float64, string, []interface{} or map[string]interface{}, an
    object's repeated member keeping its last value. *)
Inductive body : Type :=
  | NoJSON (err : error)
  | JSON (v : any).

Record Request : Type := mkRequest {
  Method : string;
  URL_Path : string;
  URL_Query : gmap string (list string);
  Body : body
}.

(** ** Package encoding/json *)

Definition json_kind (v : any) : string :=
  match v with
  | GoNil => "null"
  | GoBool _ => "bool"
  | GoInt64 _ | GoFloat64 _ => "number"
  | GoString _ | GoBytes _ => "string"
  | GoSlice _ => "array"
  | GoMap _ => "object"
  end.

(** [Decode(&data)] with [data] a nil [map[string]interface{}]: an object
    fills a new map, [null] leaves the map nil (a nil map reads as an empty
    one), any other JSON value is an [UnmarshalTypeError]. *)
Definition Decode (b : body) : gmap string any + error :=
  match b with
  | NoJSON err => inr err
  | JSON (GoMap m) => inl m
  | JSON GoNil => inl ∅
  | JSON v =>
      inr (errorString ("json: cannot unmarshal " +:+ json_kind v +:+
                        " into Go value of type map[string]interface {}"))
  end.









(** Whether [json.Encoder] writes the value as a JSON array. *)
Definition encodes_as_array (v : any) : bool :=
  match v with
  | GoSlice (mk_slice _) => true
  | _ => false
  end.

(** ** Package database/sql *)

(** A result set, as the handler can observe it: the answer of [Columns],
    the rows that [Next] yields (each the driver values of its columns), the
    error [Err] reports once [Next] has returned false, and the error of
    [Close]. *)
Record Rows : Type := mkRows {
  Rows_Columns : list string + error;
  Rows_data : list (list any);
  Rows_Err : option error;
  Rows_Close : option error
}.

(** [rows.Scan(dest...)] on the current row with [n] destinations of type
    [*interface{}]: the count must match, every driver value is stored as
    it is. *)
Definition Rows_Scan (row : list any) (n : nat) : list any + error :=
  if decide (length row = n) then inl row
  else inr (errorString ("sql: expected " +:+ pretty (length row) +:+
                         " destination arguments in Scan, not " +:+ pretty n)).

(** [*sql.Row], the pair that [QueryRow] keeps until [Scan]. *)
Definition Row : Type := (Rows + error)%type.

(** [row.Scan(dest...)] *)
Definition Row_Scan (r : Row) (n : nat) : list any + error :=
  match r with
  | inr err => inr err
  | inl rows =>
      match Rows_data rows with
      | [] =>
          match Rows_Err rows with
          | Some err => inr err
          | None => inr ErrNoRows
          end
      | row :: _ =>
          match Rows_Scan row n with
          | inr err => inr err
          | inl vals =>
              match Rows_Close rows with
              | Some err => inr err
              | None => inl vals
              end
          end
      end
  end.

(** The handle's three entry points, for the trace. *)
Inductive call : Type :=
  | Query (query : string) (args : list any)
  | QueryContext (query : string) (args : list any)
  | QueryRow (query : string) (args : list any)
  | Exec (query : string) (args : list any).

(** The database behind the handle: a state, and its answer to a query or
    to a statement. *)
Class Database : Type := {
  conn : Type;
  run_query : string → list any → conn → (Rows + error) * conn;
  run_exec : string → list any → conn → option error * conn
}.

(** The order in which [for k, v := range m] visits a map: unspecified, but
    each entry exactly once. *)
Class MapRange : Type := {
  range : ∀ {V : Type}, gmap string V → list (string * V);
  range_Permutation : ∀ (V : Type) (m : gmap string V), range m ≡ₚ map_to_list m
}.

(** [strconv.FormatFloat(f, 'g', -1, 64)], which database/sql uses to store a
    float64 column into a string. *)
Class Strconv : Type := {
  FormatFloat : float → string
}.

(** A string between double quotes. *)
Definition quoted (s : string) : string :=
  String (ascii_of_nat 34) s +:+ String (ascii_of_nat 34) EmptyString.

(** [convertAssign(dest, src)] for a destination of type [*string]. *)
Definition convertAssign_string `{Strconv} (src : any) : string + error :=
  match src with
  | GoString s | GoBytes s => inl s
  | GoBool b => inl (if b then "true" else "false")
  | GoInt64 z => inl (pretty z)
  | GoFloat64 f => inl (FormatFloat f)
  | GoNil => inr (errorString "converting NULL to string is unsupported")
  | GoSlice _ | GoMap _ =>
      inr (errorString "unsupported Scan, storing driver.Value into type *string")
  end.

(** [rows.Scan(&s)] on the current row with the single destination
    [s : string]. *)
Definition Rows_Scan_string `{Strconv} (rows : Rows) (row : list any) : string + error :=
  match row with
  | [src] =>
      match convertAssign_string src with
      | inl s => inl s
      | inr err =>
          let name := match Rows_Columns rows with inl (c :: _) => c | _ => "" end in
          inr (errorString ("sql: Scan error on column index 0, name " +:+ quoted name +:+
                            ": " +:+ Error err))
      end
  | _ =>
      inr (errorString ("sql: expected " +:+ pretty (length row) +:+
                        " destination arguments in Scan, not 1"))
  end.

(** * The program *)

Section DbExplorer.

(** [type DbExplorer struct { db *sql.DB; tables map[string][]string }].
    The handle [db] is the ambient [Database]; its state travels in the
    [world] below. *)
Record DbExplorer : Type := mkDbExplorer {
  tables : gmap string (slice string)
}.

Context `{DB : Database} `{MR : MapRange} `{SC : Strconv}.

(** What a run of the handler reads and changes: the response writer, the
    database, and the trace of the calls made on the handle. *)
Record world : Type := mkWorld {
  w : ResponseWriter;
  db : conn;
  trace : list call
}.

Definition respond (f : ResponseWriter → ResponseWriter) (σ : world) : world :=
  {| w := f (w σ); db := db σ; trace := trace σ |}.

Definition db_Query (query : string) (args : list any) (σ : world) : (Rows + error) * world :=
  let '(res, c) := run_query query args (db σ) in
  (res, {| w := w σ; db := c; trace := trace σ ++ [Query query args] |}).

Definition db_QueryContext (query : string) (args : list any) (σ : world)
  : (Rows + error) * world :=
  let '(res, c) := run_query query args (db σ) in
  (res, {| w := w σ; db := c; trace := trace σ ++ [QueryContext query args] |}).

(** [QueryRow] sends the query at once; only [Scan] is deferred. *)
Definition db_QueryRow (query : string) (args : list any) (σ : world) : Row * world :=
  let '(res, c) := run_query query args (db σ) in
  (res, {| w := w σ; db := c; trace := trace σ ++ [QueryRow query args] |}).

Definition db_Exec (query : string) (args : list any) (σ : world) : option error * world :=
  let '(err, c) := run_exec query args (db σ) in
  (err, {| w := w σ; db := c; trace := trace σ ++ [Exec query args] |}).

(** ** loadTables, NewDbExplorer *)

(** The [for rows.Next()] loop of [loadTables]: every table name is entered
    with a nil column list; [rows.Err()] is not consulted after it. *)
Fixpoint loadTables_loop (rows : Rows) (data : list (list any))
    (tables : gmap string (slice string)) : gmap string (slice string) + error :=
  match data with
  | [] => inl tables
  | row :: data =>
      match Rows_Scan_string rows row with
      | inr err => inr err
      | inl tableName => loadTables_loop rows data (<[tableName := nil_slice]> tables)
      end
  end.

Definition loadTables (c : conn) : (gmap string (slice string) + error) * conn :=
  let '(res, c) :=
    run_query "SELECT table_name FROM information_schema.tables WHERE table_schema = 'public'"
              [] c in
  match res with
  | inr err => (inr err, c)
  | inl rows => (loadTables_loop rows (Rows_data rows) ∅, c)
  end.

Definition NewDbExplorer (c : conn) : (DbExplorer + error) * conn :=
  let '(res, c) := loadTables c in
  match res with
  | inr err => (inr err, c)
  | inl tables => (inl {| tables := tables |}, c)
  end.

(** ** handleRoot *)

Definition handleRoot (de : DbExplorer) (r : Request) (σ : world) : world :=
  let tables := foldl (λ tables tableName, append tables tableName) make
                      (range (tables de)).*1 in
  let tables := sort_Strings tables in
  let response :=
    GoMap {[ "response" := GoMap {[ "tables" := GoSlice (slice_fmap GoString tables) ]} ]} in
  respond (Encode response) σ.

(** ** handleGetTable *)

(** [for i, colName := range columns { rowMap[colName] = *columnPointers[i] }];
    a successful [Scan] has filled exactly [len(columns)] pointers. *)
Definition fill_rowMap (columns : list string) (columnPointers : list any)
  : gmap string any :=
  foldl (λ rowMap '(colName, val), <[colName := val]> rowMap) ∅
        (zip columns columnPointers).

(** The [for rows.Next()] loop; [rows.Err()] is not consulted after it. *)
Fixpoint handleGetTable_loop (columns : list string) (data : list (list any))
    (result : slice (gmap string any)) : slice (gmap string any) + error :=
  match data with
  | [] => inl result
  | row :: data =>
      match Rows_Scan row (length columns) with
      | inr err => inr err
      | inl columnPointers =>
          let rowMap := fill_rowMap columns columnPointers in
          handleGetTable_loop columns data (append result rowMap)
      end
  end.

(** The five-second deadline of [ctx] is not part of the model: a query the
    deadline cuts short is one the database answers with an error. *)
Definition handleGetTable (de : DbExplorer) (r : Request) (tableName : string)
    (σ : world) : world :=
  let limit := Values_Get (URL_Query r) "limit" in
  let offset := Values_Get (URL_Query r) "offset" in
  let limitValue := if decide (limit ≠ "") then limit else "100" in
  let offsetValue := if decide (offset ≠ "") then offset else "0" in
  let query := "SELECT * FROM " +:+ tableName +:+ " LIMIT " +:+ limitValue +:+
               " OFFSET " +:+ offsetValue in
  let '(res, σ) := db_QueryContext query [] σ in
  match res with
  | inr err => respond (http_Error (Error err) StatusInternalServerError) σ
  | inl rows =>
      match Rows_Columns rows with
      | inr err => respond (http_Error (Error err) StatusInternalServerError) σ
      | inl columns =>
          match handleGetTable_loop columns (Rows_data rows) nil_slice with
          | inr err => respond (http_Error (Error err) StatusInternalServerError) σ
          | inl result =>
              let response :=
                GoMap {[ "response" :=
                  GoMap {[ "records" := GoSlice (slice_fmap GoMap result) ]} ]} in
              respond (Encode response) σ
          end
      end
  end.

(** ** handlePutTable *)

(** The [for key, value := range data] loop. *)
Fixpoint handlePutTable_loop (entries : list (string * any))
    (setClauses : list string) (values : list any) : list string * list any :=
  match entries with
  | [] => (setClauses, values)
  | (key, value) :: entries =>
      if decide (key = "id") then handlePutTable_loop entries setClauses values
      else handlePutTable_loop entries
             (setClauses ++ [key +:+ " = $" +:+ pretty (length values + 1)])
             (values ++ [value])
  end.

Definition handlePutTable (de : DbExplorer) (r : Request) (tableName : string)
    (σ : world) : world :=
  match Decode (Body r) with
  | inr _ => respond (http_Error "Invalid JSON" StatusBadRequest) σ
  | inl data =>
      match data !! "id" with
      | None => respond (http_Error "Missing 'id' field" StatusBadRequest) σ
      | Some id =>
          let '(setClauses, values) := handlePutTable_loop (range data) [] [] in
          let values := values ++ [id] in
          let query := "UPDATE " +:+ tableName +:+ " SET " +:+
                       Strings.Join setClauses ", " +:+
                       " WHERE id = $" +:+ pretty (length values) in
          let '(err, σ) := db_Exec query values σ in
          match err with
          | Some err =>
              respond (http_Error ("Error updating record: " +:+ Error err)
                                  StatusInternalServerError) σ
          | None =>
              let response := GoMap {[ "response" := GoMap {[ "id" := id ]} ]} in
              respond (Encode response)
                (respond (Header_Set "Content-Type" "application/json") σ)
          end
      end
  end.

(** ** handleGetRecord *)

(** The [for columns.Next()] loop; [columns.Err()] is not consulted after
    it. *)
Fixpoint handleGetRecord_loop (columns : Rows) (data : list (list any))
    (columnNames : slice string) : slice string + error :=
  match data with
  | [] => inl columnNames
  | row :: data =>
      match Rows_Scan_string columns row with
      | inr err => inr err
      | inl columnName => handleGetRecord_loop columns data (append columnNames columnName)
      end
  end.

Definition handleGetRecord (de : DbExplorer) (r : Request) (tableName id : string)
    (σ : world) : world :=
  let '(row, σ) :=
    db_QueryRow ("SELECT * FROM " +:+ tableName +:+ " WHERE id = $1") [GoString id] σ in
  let '(res, σ) :=
    db_Query "SELECT column_name FROM information_schema.columns WHERE table_name = $1"
             [GoString tableName] σ in
  match res with
  | inr err => respond (http_Error (Error err) StatusInternalServerError) σ
  | inl columns =>
      match handleGetRecord_loop columns (Rows_data columns) nil_slice with
      | inr err => respond (http_Error (Error err) StatusInternalServerError) σ
      | inl columnNames =>
          match Row_Scan row (len columnNames) with
          | inr err =>
              if is_ErrNoRows err then
                respond (http_Error ("{" +:+ quoted "error" +:+ ": " +:+
                                     quoted "record not found" +:+ "}")
                                    StatusNotFound) σ
              else respond (http_Error (Error err) StatusInternalServerError) σ
          | inl columnPointers =>
              let rowMap := fill_rowMap (elems columnNames) columnPointers in
              let response :=
                GoMap {[ "response" := GoMap {[ "record" := GoMap rowMap ]} ]} in
              respond (Encode response) σ
          end
      end
  end.

(** ** handlePostRecord, handleDeleteRecord *)

Definition handlePostRecord (de : DbExplorer) (r : Request) (tableName id : string)
    (σ : world) : world :=
  respond (http_Error "POST operation not implemented for this table"
                      StatusNotImplemented) σ.

Definition handleDeleteRecord (de : DbExplorer) (r : Request) (tableName id : string)
    (σ : world) : world :=
  respond (http_Error "DELETE operation not implemented for this table"
                      StatusNotImplemented) σ.

(** ** ServeHTTP *)

(** The path of the request, trimmed and split: [parts] in [ServeHTTP]. *)
Definition segments (r : Request) : list string :=
  let path := Strings.Trim (URL_Path r) "/" in
  Strings.Split path "/".

Definition ServeHTTP (de : DbExplorer) (r : Request) (σ : world) : world :=
  let parts := segments r in
  if decide (length parts = 1 ∧ hd "" parts = "") then handleRoot de r σ
  else
    let tableName := hd "" parts in
    match tables de !! tableName with
    | None =>
        respond (http_Error ("{" +:+ quoted "error" +:+ ": " +:+
                             quoted "unknown table" +:+ "}")
                            StatusNotFound) σ
    | Some _ =>
        if decide (length parts = 1) then
          if decide (Method r = MethodGet) then handleGetTable de r tableName σ
          else if decide (Method r = MethodPut) then handlePutTable de r tableName σ
          else respond (http_Error "Method not allowed" StatusMethodNotAllowed) σ
        else if decide (length parts = 2) then
          let id := default "" (parts !! 1) in
          if decide (Method r = MethodGet) then handleGetRecord de r tableName id σ
          else if decide (Method r = MethodPost) then handlePostRecord de r tableName id σ
          else if decide (Method r = MethodDelete) then
            handleDeleteRecord de r tableName id σ
          else respond (http_Error "Method not allowed" StatusMethodNotAllowed) σ
        else σ
    end.

(** One request served from a fresh writer, on a database in state [c]. *)
Definition serve (de : DbExplorer) (r : Request) (c : conn) : world :=
  ServeHTTP de r {| w := NewResponseWriter; db := c; trace := [] |}.

(** The handler leaves the database alone: no call on the handle, and the
    state it was given. *)
Definition no_database_access (σ : world) (c : conn) : Prop :=
  trace σ = [] ∧ db σ = c.

End DbExplorer.

(** * Vocabulary of the statements *)

(** The response is the one [http.Error] writes on a fresh writer: status
    [code], a [text/plain] content type, and [msg] on a line of its own as
    the whole body. *)
Definition is_http_Error (rw : ResponseWriter) (code : nat) (msg : string) : Prop :=
  StatusCode rw = code ∧
  Header rw !! "Content-Type" = Some ["text/plain; charset=utf-8"] ∧
  written rw = [Bytes (msg +:+ newline)].

(** The response is one JSON document, sent with the implicit 200. *)
Definition is_json_200 (rw : ResponseWriter) (v : any) : Prop :=
  StatusCode rw = StatusOK ∧ written rw = [Encoded v].

(** [query] in [handleGetTable]: the statement a listing sends. *)
Definition listing_statement (r : Request) (tableName : string) : string :=
  let limit := Values_Get (URL_Query r) "limit" in
  let offset := Values_Get (URL_Query r) "offset" in
  let limitValue := if decide (limit ≠ "") then limit else "100" in
  let offsetValue := if decide (offset ≠ "") then offset else "0" in
  "SELECT * FROM " +:+ tableName +:+ " LIMIT " +:+ limitValue +:+
  " OFFSET " +:+ offsetValue.

(** The request, sent to another path. *)
Definition with_path (r : Request) (path : string) : Request :=
  {| Method := Method r; URL_Path := path; URL_Query := URL_Query r; Body := Body r |}.

(** The status codes the handlers pass to [http.Error]. *)
Definition error_statuses : list nat :=
  [StatusBadRequest; StatusNotFound; StatusMethodNotAllowed;
   StatusInternalServerError; StatusNotImplemented].

(** The four ways a handler leaves the writer it was given fresh: untouched;
    one call of [http.Error]; one call of [Encode]; for PUT, one call of
    [Encode] after the content type was set. *)
Inductive response_shape (method : string) (rw : ResponseWriter) : Prop :=
  | shape_untouched :
      rw = NewResponseWriter → response_shape method rw
  | shape_error code msg :
      code ∈ error_statuses →
      rw = http_Error msg code NewResponseWriter → response_shape method rw
  | shape_json v :
      rw = Encode v NewResponseWriter → response_shape method rw
  | shape_typed_json v :
      method = MethodPut →
      rw = Encode v (Header_Set "Content-Type" "application/json" NewResponseWriter) →
      response_shape method rw.

(** * A fixture: the database of [main_test.go] *)

Module Fixture.

(** Table [items] of [PrepareTestApis], with ASCII descriptions. *)
Definition items_columns : list string := ["id"; "title"; "description"; "updated"].

Definition item1 : list any :=
  [GoInt64 1; GoString "database/sql"; GoString "about databases"; GoString "rvasily"].
Definition item2 : list any :=
  [GoInt64 2; GoString "memcache"; GoString "about memcache"; GoNil].

Definition result_set (columns : list string) (data : list (list any)) : Rows :=
  {| Rows_Columns := inl columns; Rows_data := data; Rows_Err := None; Rows_Close := None |}.

(** The state counts the statements executed so far.  Queries are answered
    by text: the listings of [items] the tests make, the lookup of an item
    by id, the column metadata of [items] and the table names; anything else
    is a syntax error.  Statements succeed, except an UPDATE with nothing
    to set. *)
Definition answer (query : string) (args : list any) : Rows + error :=
  if decide (query = "SELECT * FROM items LIMIT 100 OFFSET 0") then
    inl (result_set items_columns [item1; item2])
  else if decide (query = "SELECT * FROM items LIMIT 1 OFFSET 1") then
    inl (result_set items_columns [item2])
  else if decide (query = "SELECT * FROM items LIMIT 0 OFFSET 0") then
    inl (result_set items_columns [])
  else if decide (query = "SELECT * FROM items WHERE id = $1") then
    match args with
    | [GoString "1"] => inl (result_set items_columns [item1])
    | [GoString "2"] => inl (result_set items_columns [item2])
    | _ => inl (result_set items_columns [])
    end
  else if decide (query =
      "SELECT column_name FROM information_schema.columns WHERE table_name = $1") then
    match args with
    | [GoString "items"] =>
        inl (result_set ["column_name"] ((λ c, [GoString c]) <$> items_columns))
    | _ => inl (result_set ["column_name"] [])
    end
  else if decide (query =
      "SELECT table_name FROM information_schema.tables WHERE table_schema = 'public'") then
    inl (result_set ["table_name"] [[GoString "items"]; [GoString "users"]])
  else inr (errorString "pq: syntax error").

Definition database : Database :=
  {| conn := nat;
     run_query := λ query args n, (answer query args, S n);
     run_exec := λ query args n,
       (if decide (query = "UPDATE items SET  WHERE id = $1")
        then Some (errorString "pq: syntax error") else None, S n) |}.

(** Two iteration orders: the one of [map_to_list], and its reverse. *)
Program Definition forward : MapRange :=
  {| range := λ V m, map_to_list m |}.
Next Obligation. reflexivity. Qed.

Program Definition backward : MapRange :=
  {| range := λ V m, reverse (map_to_list m) |}.
Next Obligation. intros. apply reverse_Permutation. Qed.

Definition strconv : Strconv := {| FormatFloat := λ _, "0" |}.

(** The Catalog [loadTables] builds for that database: both tables, no
    column list (see [explorer_loaded] below). *)
Definition explorer : DbExplorer :=
  {| tables := <["users" := nil_slice]> (<["items" := nil_slice]> ∅) |}.

Definition request (method path : string) : Request :=
  {| Method := method; URL_Path := path; URL_Query := ∅; Body := NoJSON (errorString "EOF") |}.

Definition with_query (r : Request) (key value : string) : Request :=
  {| Method := Method r; URL_Path := URL_Path r;
     URL_Query := <[key := [value]]> (URL_Query r); Body := Body r |}.

Definition with_body (r : Request) (v : any) : Request :=
  {| Method := Method r; URL_Path := URL_Path r;
     URL_Query := URL_Query r; Body := JSON v |}.

Definition run (order : MapRange) (r : Request) : @world database :=
  @serve database order strconv explorer r 0.

(** A database in a worse state: the table listing has a NULL name, the
    column metadata of [items] comes twice (a second schema has a table of
    that name), and the listing of [items] has a row cut short. *)
Definition faulty_answer (query : string) (args : list any) : Rows + error :=
  if decide (query =
      "SELECT table_name FROM information_schema.tables WHERE table_schema = 'public'") then
    inl (result_set ["table_name"] [[GoString "items"]; [GoNil]; [GoString "users"]])
  else if decide (query =
      "SELECT column_name FROM information_schema.columns WHERE table_name = $1") then
    inl (result_set ["column_name"]
           ((λ c, [GoString c]) <$> (items_columns ++ items_columns)))
  else if decide (query = "SELECT * FROM items WHERE id = $1") then
    inl (result_set items_columns [item1])
  else if decide (query = "SELECT * FROM items LIMIT 100 OFFSET 0") then
    inl (result_set items_columns [item1; [GoInt64 2]])
  else inr (errorString "pq: syntax error").

Definition faulty : Database :=
  {| conn := nat;
     run_query := λ query args n, (faulty_answer query args, S n);
     run_exec := λ query args n, (None, S n) |}.

Definition run_faulty (r : Request) : @world faulty :=
  @serve faulty forward strconv explorer r 0.







(** A table of measurements, one of which is not a number. *)
Definition readings : Database :=
  {| conn := nat;
     run_query := λ query args n,
       (if decide (query = "SELECT * FROM items LIMIT 100 OFFSET 0")
        then inl (result_set ["id"; "reading"]
                    [[GoInt64 1; GoFloat64 1]; [GoInt64 2; GoFloat64 nan]])
        else inr (errorString "pq: syntax error"), S n);
     run_exec := λ query args n, (None, S n) |}.

Definition run_readings (r : Request) : @world readings :=
  @serve readings forward strconv explorer r 0.

End Fixture.


(** * Properties *)

(** ** The order of [sort.Strings] *)

Section string_order.

Lemma increasing_Sorted l : Sorted String.le (increasing l).
Proof. apply (Sorted_merge_sort String.le). Qed.

Lemma increasing_Permutation l : increasing l ≡ₚ l.
Proof. apply (merge_sort_Permutation String.le). Qed.

(** Whatever algorithm [sort.Strings] runs, its output is this one. *)
Lemma increasing_unique l l' :
  Sorted String.le l' → l' ≡ₚ l → l' = increasing l.
Proof.
  intros Hs Hp. apply (Sorted_unique String.le); [done|apply increasing_Sorted|].
  by rewrite Hp, increasing_Permutation.
Qed.

(** The order in which the input lists the strings is irrelevant. *)
Lemma increasing_proper l1 l2 : l1 ≡ₚ l2 → increasing l1 = increasing l2.
Proof.
  intros Hp. apply increasing_unique; [apply increasing_Sorted|].
  by rewrite increasing_Permutation.
Qed.

End string_order.

(** ** Paths *)

Section paths.

Import Strings.

Example Trim_both : Trim "//items/1/" "/" = "items/1".
Proof. reflexivity. Qed.

Example Trim_slashes : Trim "///" "/" = "".
Proof. reflexivity. Qed.

Example Split_empty : Split "" "/" = [""].
Proof. reflexivity. Qed.

Example Split_inner : Split "items//1" "/" = ["items"; ""; "1"].
Proof. reflexivity. Qed.

Lemma Split_nonempty s sep : Split s sep ≠ [].
Proof.
  destruct s as [|a s]; simpl; [done|].
  destruct (Ascii.eqb a sep); [done|]. by destruct (Split s sep).
Qed.

(** Joining the pieces with the separator gives the string back. *)
Lemma Join_Split s sep : Join (Split s sep) (String sep "") = s.
Proof.
  induction s as [|a s IH]; simpl; [done|].
  destruct (Ascii.eqb a sep) eqn:Ha.
  - apply Ascii.eqb_eq in Ha as ->.
    destruct (Split s sep) as [|piece pieces] eqn:Hs; [by apply Split_nonempty in Hs|].
    simpl in *. by rewrite IH.
  - destruct (Split s sep) as [|piece [|piece' pieces]] eqn:Hs;
      [by apply Split_nonempty in Hs|..]; simpl in *; by rewrite <-IH.
Qed.

Lemma TrimLeft_head s c a t : TrimLeft s c = String a t → a ≠ c.
Proof.
  induction s as [|b s IH]; simpl; [done|].
  destruct (Ascii.eqb b c) eqn:Hb; [done|].
  intros [= -> _]. by apply Ascii.eqb_neq.
Qed.

Lemma TrimRight_head s c a t : TrimRight s c = String a t → ∃ s', s = String a s'.
Proof.
  destruct s as [|b s]; simpl; [done|].
  destruct (TrimRight s c); [destruct (Ascii.eqb b c)|]; intros [= -> _]; eauto.
Qed.

Lemma Split_head_empty s sep :
  hd "" (Split s sep) = "" → s = "" ∨ ∃ s', s = String sep s'.
Proof.
  destruct s as [|a s]; simpl; [by left|].
  destruct (Ascii.eqb a sep) eqn:Ha.
  - apply Ascii.eqb_eq in Ha as ->. eauto.
  - by destruct (Split s sep).
Qed.

(** A trimmed path starts with a slash-free, non-empty segment, unless it is
    the root: the first segment is empty for the root path only. *)
Lemma segments_first_empty r : hd "" (segments r) = "" → segments r = [""].
Proof.
  unfold segments. intros [Hs|[s' Hs]]%Split_head_empty.
  - by rewrite Hs.
  - unfold Trim in Hs. destruct (TrimRight_head _ _ _ _ Hs) as [s'' Hleft].
    by apply TrimLeft_head in Hleft.
Qed.

End paths.

(** ** Responses *)

Lemma http_Error_fresh msg code :
  is_http_Error (http_Error msg code NewResponseWriter) code msg.
Proof. by repeat split. Qed.

Lemma Encode_fresh v :
  encodable v = true → is_json_200 (Encode v NewResponseWriter) v.
Proof. intros Hv. unfold Encode. by rewrite Hv. Qed.

(** A value that does not marshal leaves the writer as it was. *)
Lemma Encode_unencodable v rw : encodable v = false → Encode v rw = rw.
Proof. intros Hv. unfold Encode. by rewrite Hv. Qed.

(** ** Marshalling *)

Lemma encodable_map m :
  encodable (GoMap m) = true ↔ map_Forall (λ _ v, encodable v = true) m.
Proof.
  simpl. induction m as [|k v m Hk Hfold IH] using map_first_key_ind.
  - rewrite map_fold_empty. split; [intros; apply map_Forall_empty|done].
  - rewrite map_fold_insert_first_key by done.
    rewrite andb_true_iff, IH, map_Forall_insert by done. tauto.
Qed.

Lemma encodable_singleton k v : encodable (GoMap {[ k := v ]}) = encodable v.
Proof. simpl. rewrite map_fold_singleton. apply andb_true_r. Qed.

Lemma encodable_slice l :
  encodable (GoSlice (mk_slice l)) = true ↔ Forall (λ v, encodable v = true) l.
Proof.
  simpl. rewrite forallb_forall, Forall_forall.
  split; intros Hl v Hv; apply Hl; by apply list_elem_of_In.
Qed.

Lemma encodable_strings (x : slice string) :
  encodable (GoSlice (slice_fmap GoString x)) = true.
Proof.
  destruct x as [|l]; [done|]. apply encodable_slice.
  apply Forall_fmap, Forall_true. done.
Qed.

(** A map filled from values that marshal marshals. *)
Lemma encodable_fill_rowMap columns columnPointers :
  Forall (λ v, encodable v = true) columnPointers →
  encodable (GoMap (fill_rowMap columns columnPointers)) = true.
Proof.
  intros Hvals. apply encodable_map. unfold fill_rowMap.
  assert (map_Forall (λ (_ : string) v, encodable v = true) (∅ : gmap string any)) as Hm
    by apply map_Forall_empty.
  revert Hm. generalize (∅ : gmap string any). revert columnPointers Hvals.
  induction columns as [|n columns IH]; intros [|v vals] Hvals m Hm; simpl; try done.
  apply Forall_cons in Hvals as [Hv Hvals].
  apply IH; [done|]. by apply map_Forall_insert_2.
Qed.

Section routing.

Context `{DB : Database} `{MR : MapRange} `{SC : Strconv}.
Implicit Types (de : DbExplorer) (r : Request) (c : conn).

Lemma serve_root de r c :
  segments r = [""] →
  serve de r c = handleRoot de r {| w := NewResponseWriter; db := c; trace := [] |}.
Proof. intros Hs. unfold serve, ServeHTTP. rewrite Hs. by rewrite decide_True. Qed.

Lemma serve_unknown de r c :
  segments r ≠ [""] →
  tables de !! hd "" (segments r) = None →
  serve de r c =
    {| w := http_Error ("{" +:+ quoted "error" +:+ ": " +:+ quoted "unknown table" +:+ "}")
                       StatusNotFound NewResponseWriter;
       db := c; trace := [] |}.
Proof.
  intros Hs Ht. unfold serve, ServeHTTP.
  destruct (decide (_ ∧ _)) as [[Hl Hh]|_]; [|by rewrite Ht].
  by destruct (segments r) as [|p [|??]]; simplify_eq/=.
Qed.

Lemma serve_table de r c tableName :
  segments r = [tableName] → tableName ≠ "" → is_Some (tables de !! tableName) →
  serve de r c =
    let σ := {| w := NewResponseWriter; db := c; trace := [] |} in
    if decide (Method r = MethodGet) then handleGetTable de r tableName σ
    else if decide (Method r = MethodPut) then handlePutTable de r tableName σ
    else respond (http_Error "Method not allowed" StatusMethodNotAllowed) σ.
Proof.
  intros Hs Hne [cols Ht]. unfold serve, ServeHTTP. rewrite Hs; simpl.
  destruct (decide (_ ∧ _)) as [[_ ?]|_]; [done|]. by rewrite Ht.
Qed.

Lemma serve_record de r c tableName id :
  segments r = [tableName; id] → is_Some (tables de !! tableName) →
  serve de r c =
    let σ := {| w := NewResponseWriter; db := c; trace := [] |} in
    if decide (Method r = MethodGet) then handleGetRecord de r tableName id σ
    else if decide (Method r = MethodPost) then handlePostRecord de r tableName id σ
    else if decide (Method r = MethodDelete) then handleDeleteRecord de r tableName id σ
    else respond (http_Error "Method not allowed" StatusMethodNotAllowed) σ.
Proof.
  intros Hs [cols Ht]. unfold serve, ServeHTTP. rewrite Hs; simpl.
  by rewrite Ht.
Qed.

Lemma serve_deeper de r c :
  3 ≤ length (segments r) → is_Some (tables de !! hd "" (segments r)) →
  serve de r c = {| w := NewResponseWriter; db := c; trace := [] |}.
Proof.
  intros Hl [cols Ht]. unfold serve, ServeHTTP.
  destruct (decide (_ ∧ _)) as [[? _]|_]; [lia|]. rewrite Ht.
  destruct (decide (_ = 1)); [lia|]. by destruct (decide (_ = 2)); [lia|].
Qed.

End routing.

(** ** Table validation and method dispatch *)

Section dispatch.

Context `{DB : Database} `{MR : MapRange} `{SC : Strconv}.
Implicit Types (de : DbExplorer) (r : Request) (c : conn).

(** C4.  A request whose path is not the root and whose first segment is not
    a key of the Catalog is answered 404 with the body
    [{"error": "unknown table"}], whatever its method and however many
    segments follow; the database is not touched. *)
Theorem unknown_table_not_found de r c :
  segments r ≠ [""] →
  tables de !! hd "" (segments r) = None →
  let σ := serve de r c in
  is_http_Error (w σ) StatusNotFound
    ("{" +:+ quoted "error" +:+ ": " +:+ quoted "unknown table" +:+ "}") ∧
  no_database_access σ c.
Proof.
  intros Hs Ht σ. subst σ. rewrite serve_unknown by done.
  split; [apply http_Error_fresh|done].
Qed.

(** C10.  On a path of three or more segments whose first segment is a table
    of the Catalog the handler returns without calling [WriteHeader] and
    without writing a byte, for every method: the client gets the HTTP
    layer's empty 200, never a 404, 405 or 501.  No statement is sent. *)
Theorem deeper_path_writes_nothing de r c :
  3 ≤ length (segments r) →
  is_Some (tables de !! hd "" (segments r)) →
  let σ := serve de r c in
  wroteHeader (w σ) = None ∧ written (w σ) = [] ∧ Header (w σ) = ∅ ∧
  StatusCode (w σ) = StatusOK ∧
  no_database_access σ c.
Proof. intros Hl Ht σ. subst σ. by rewrite serve_deeper. Qed.

(** C1, as the code has it.  POST and DELETE on [/{table}/{id}] get 501 and
    a plain-text body once [{table}] has passed the Catalog check, whatever
    the id; no statement is sent. *)
Theorem post_delete_not_implemented de r c tableName id :
  segments r = [tableName; id] →
  is_Some (tables de !! tableName) →
  Method r = MethodPost ∨ Method r = MethodDelete →
  let σ := serve de r c in
  is_http_Error (w σ) StatusNotImplemented
    (if decide (Method r = MethodPost)
     then "POST operation not implemented for this table"
     else "DELETE operation not implemented for this table") ∧
  no_database_access σ c.
Proof.
  intros Hs Ht Hm σ. subst σ. rewrite (serve_record _ _ _ tableName id) by done.
  destruct Hm as [Hm|Hm]; rewrite Hm; simpl; (split; [apply http_Error_fresh|done]).
Qed.

(** C5.  GET on [/{table}] sends one statement, through [QueryContext] and
    with no bound argument: the texts of [limit] and [offset] are spliced
    into it, with 100 and 0 standing in for a parameter that is absent or
    empty. *)
Theorem get_table_statement de r c tableName :
  segments r = [tableName] → tableName ≠ "" →
  is_Some (tables de !! tableName) →
  Method r = MethodGet →
  let pagination key fallback :=
    match URL_Query r !! key with
    | Some (v :: _) => if decide (v = "") then fallback else v
    | _ => fallback
    end in
  trace (serve de r c) =
    [QueryContext ("SELECT * FROM " +:+ tableName +:+
                   " LIMIT " +:+ pagination "limit" "100" +:+
                   " OFFSET " +:+ pagination "offset" "0") []].
Proof.
  intros Hs Hne Ht Hm pagination. rewrite (serve_table _ _ _ tableName) by done.
  rewrite Hm; simpl. unfold handleGetTable, db_QueryContext.
  assert (∀ key fallback,
    (if decide (Values_Get (URL_Query r) key ≠ "")
     then Values_Get (URL_Query r) key else fallback) = pagination key fallback) as Hp.
  { intros key fallback. unfold pagination, Values_Get.
    destruct (URL_Query r !! key) as [[|v vs]|]; simpl; try done.
    by repeat case_decide. }
  rewrite !Hp. simpl.
  destruct (run_query _ _ _) as [[rows|err] c']; simpl; [|done].
  destruct (Rows_Columns rows) as [columns|err]; simpl; [|done].
  by destruct (handleGetTable_loop _ _ _).
Qed.

(** A known table reached with a method the path shape does not serve (other
    than GET and PUT on [/{table}], other than GET, POST and DELETE on
    [/{table}/{id}]) is answered 405; no statement is sent. *)
Theorem other_methods_not_allowed de r c :
  segments r ≠ [""] →
  is_Some (tables de !! hd "" (segments r)) →
  (length (segments r) = 1 ∧ Method r ≠ MethodGet ∧ Method r ≠ MethodPut) ∨
  (length (segments r) = 2 ∧
   Method r ≠ MethodGet ∧ Method r ≠ MethodPost ∧ Method r ≠ MethodDelete) →
  let σ := serve de r c in
  is_http_Error (w σ) StatusMethodNotAllowed "Method not allowed" ∧
  no_database_access σ c.
Proof.
  intros Hroot Ht Hshape σ. subst σ.
  destruct Hshape as [(Hl & Hget & Hput)|(Hl & Hget & Hpost & Hdelete)].
  - destruct (segments r) as [|tableName [|??]] eqn:Hs; simplify_eq/=.
    rewrite (serve_table _ _ _ tableName) by (done || congruence).
    rewrite !decide_False by done. split; [apply http_Error_fresh|done].
  - destruct (segments r) as [|tableName [|id [|??]]] eqn:Hs; simplify_eq/=.
    rewrite (serve_record _ _ _ tableName id) by done.
    rewrite !decide_False by done. split; [apply http_Error_fresh|done].
Qed.

End dispatch.

(** ** Decoding *)

Section decoding.

Context `{NU : Numbers}.

Example Join_three : Strings.Join ["a = $1"; "b = $2"; "c = $3"] ", " = "a = $1, b = $2, c = $3".
Proof. reflexivity. Qed.

Example Join_none : Strings.Join [] ", " = "".
Proof. reflexivity. Qed.








End decoding.

(** ** Updates *)

Section put.

Context `{DB : Database} `{MR : MapRange} `{SC : Strconv} `{NU : Numbers}.
Implicit Types (de : DbExplorer) (r : Request) (c : conn).

(** The loop appends one clause and one value per entry other than [id], in
    the order of the walk, numbering the placeholders from the values
    already present. *)
Lemma handlePutTable_loop_spec entries setClauses values :
  handlePutTable_loop entries setClauses values =
    let fields := filter (λ field, field.1 ≠ "id") entries in
    (setClauses ++
       imap (λ i field, field.1 +:+ " = $" +:+ pretty (length values + i + 1)) fields,
     values ++ fields.*2).
Proof.
  revert setClauses values.
  induction entries as [|[key value] entries IH]; intros setClauses values; simpl.
  { by rewrite !app_nil_r. }
  case_decide as Hk.
  - rewrite filter_cons_False by (simpl; tauto). apply IH.
  - rewrite filter_cons_True by done. rewrite IH; simpl.
    rewrite <-!app_assoc; simpl. f_equal. f_equal. f_equal.
    + by rewrite Nat.add_0_r.
    + apply imap_ext; intros i field _; simpl. rewrite length_app; simpl.
      do 3 f_equal. lia.
Qed.

Lemma filter_delete_Permutation (data : gmap string any) key entries :
  entries ≡ₚ map_to_list data →
  filter (λ field, field.1 ≠ key) entries ≡ₚ map_to_list (delete key data).
Proof.
  intros ->. apply NoDup_Permutation.
  - apply NoDup_filter, NoDup_map_to_list.
  - apply NoDup_map_to_list.
  - intros [k v]. rewrite list_elem_of_filter, !elem_of_map_to_list, lookup_delete_Some.
    simpl. split; intros [??]; split; congruence.
Qed.





(** When the database refuses the UPDATE, the answer is 500 with the
    driver's error text after [Error updating record: ]. *)
Theorem put_table_exec_error de r c tableName data id :
  segments r = [tableName] → tableName ≠ "" →
  is_Some (tables de !! tableName) →
  Method r = MethodPut →
  Body r = JSON (GoMap data) →
  data !! "id" = Some id →
  let σ := serve de r c in
  ∀ query values err,
    trace σ = [Exec query values] →
    (run_exec query values c).1 = Some err →
    is_http_Error (w σ) StatusInternalServerError
      ("Error updating record: " +:+ Error err).
Proof.
  intros Hs Hne Ht Hm Hb Hid σ query values err. subst σ.
  rewrite (serve_table _ _ _ tableName) by done.
  rewrite Hm; simpl. unfold handlePutTable. rewrite Hb; simpl. rewrite Hid.
  destruct (handlePutTable_loop _ _ _) as [setClauses vals]. unfold db_Exec; simpl.
  destruct (run_exec _ _ c) as [[err'|] c'] eqn:Hexec; simpl.
  - intros [= <- <-]. rewrite Hexec; simpl. intros [= <-]. apply http_Error_fresh.
  - intros [= <- <-]. by rewrite Hexec.
Qed.

End put.

(** ** The Catalog *)

Section catalog.

Context `{DB : Database} `{SC : Strconv}.

Lemma loadTables_loop_nil (rows : Rows) data tables tables' :
  loadTables_loop rows data tables = inl tables' →
  (∀ tableName columns, tables !! tableName = Some columns → columns = nil_slice) →
  ∀ tableName columns, tables' !! tableName = Some columns → columns = nil_slice.
Proof.
  revert tables. induction data as [|row data IH]; intros tables Hloop Hnil; simplify_eq/=.
  { done. }
  destruct (Rows_Scan_string rows row) as [name|err]; [|done].
  apply (IH _ Hloop). intros tableName columns.
  destruct (decide (name = tableName)) as [->|Hne].
  - rewrite lookup_insert_eq. congruence.
  - rewrite lookup_insert_ne by done. apply Hnil.
Qed.

(** The Catalog is loaded without any column list: every table name is
    mapped to nil. *)
Lemma NewDbExplorer_no_columns c de tableName columns :
  (NewDbExplorer c).1 = inl de →
  tables de !! tableName = Some columns →
  columns = nil_slice.
Proof.
  unfold NewDbExplorer, loadTables.
  destruct (run_query _ _ c) as [[rows|err] c']; simpl; [|done].
  destruct (loadTables_loop rows _ _) as [loaded|err] eqn:Hloop; simpl; [|done].
  intros [= <-]; simpl. by apply (loadTables_loop_nil _ _ _ _ Hloop).
Qed.

End catalog.

(** ** The root listing *)

Section root.

Context `{DB : Database} `{MR : MapRange} `{SC : Strconv}.
Implicit Types (de : DbExplorer) (r : Request) (c : conn).

Lemma foldl_append_make {A} (l0 l : list A) :
  foldl (λ s x, append s x) (mk_slice l0) l = mk_slice (l0 ++ l).
Proof.
  revert l0. induction l as [|x l IH]; intros l0; simpl; [by rewrite app_nil_r|].
  unfold append at 2; simpl. by rewrite IH, <-app_assoc.
Qed.

Lemma keys_Permutation {V} (m : gmap string V) :
  (map_to_list m).*1 ≡ₚ elements (dom m).
Proof.
  apply NoDup_Permutation.
  - apply NoDup_fst_map_to_list.
  - apply NoDup_elements.
  - intros k. rewrite elem_of_elements, elem_of_dom, list_elem_of_fmap. split.
    + intros [[k' v] [-> Hkv]]. apply elem_of_map_to_list in Hkv. by exists v.
    + intros [v Hv]. exists (k, v). by rewrite elem_of_map_to_list.
Qed.

(** The table names [handleRoot] lists do not depend on the order of the
    walk. *)
Lemma handleRoot_names de :
  sort_Strings (foldl (λ tables tableName, append tables tableName) make
                      (range (tables de)).*1) =
  mk_slice (increasing (elements (dom (tables de)))).
Proof.
  unfold make. rewrite foldl_append_make; simpl. f_equal. apply increasing_proper.
  rewrite <-keys_Permutation. apply fmap_Permutation, range_Permutation.
Qed.

(** C9.  Whatever the Catalog holds and in whatever order its map is walked,
    the root path is answered 200 with [{"response": {"tables": names}}],
    [names] being the keys of the Catalog in increasing order, as a JSON
    array; the database is not touched. *)
Theorem root_lists_tables_sorted de r c :
  segments r = [""] →
  let σ := serve de r c in
  let names := increasing (elements (dom (tables de))) in
  is_json_200 (w σ)
    (GoMap {[ "response" :=
       GoMap {[ "tables" := GoSlice (mk_slice (GoString <$> names)) ]} ]}) ∧
  encodes_as_array (GoSlice (mk_slice (GoString <$> names))) = true ∧
  Sorted String.le names ∧
  (∀ tableName, tableName ∈ names ↔ is_Some (tables de !! tableName)) ∧
  NoDup names ∧
  no_database_access σ c.
Proof.
  intros Hs σ names. subst σ. rewrite serve_root by done.
  unfold handleRoot. rewrite handleRoot_names. fold names.
  split_and!; try done.
  - simpl. apply Encode_fresh. rewrite !encodable_singleton.
    apply (encodable_strings (mk_slice names)).
  - apply increasing_Sorted.
  - intros tableName. unfold names.
    by rewrite increasing_Permutation, elem_of_elements, elem_of_dom.
  - unfold names. rewrite increasing_Permutation. apply NoDup_elements.
Qed.

End root.

(** ** Single records *)

Section record.

Context `{DB : Database} `{MR : MapRange} `{SC : Strconv}.
Implicit Types (de : DbExplorer) (r : Request) (c : conn).

Local Abbreviation fill rowMap columns columnPointers :=
  (foldl (λ rowMap '(colName, val), <[colName := val]> rowMap) rowMap
         (zip columns columnPointers)).

Lemma fill_lookup_absent (columns : list string) (columnPointers : list any)
    (rowMap : gmap string any) colName :
  colName ∉ columns →
  fill rowMap columns columnPointers !! colName = rowMap !! colName.
Proof.
  revert columnPointers rowMap.
  induction columns as [|n columns IH]; intros [|v vals] rowMap Hn; simpl; try done.
  apply not_elem_of_cons in Hn as [Hne Hn].
  rewrite IH by done. by rewrite lookup_insert_ne.
Qed.

Lemma fill_lookup (columns : list string) (columnPointers : list any)
    (rowMap : gmap string any) i colName val :
  columns !! i = Some colName →
  columnPointers !! i = Some val →
  (∀ j, i < j → columns !! j ≠ Some colName) →
  fill rowMap columns columnPointers !! colName = Some val.
Proof.
  revert columnPointers rowMap i.
  induction columns as [|n columns IH]; intros [|v vals] rowMap [|i] Hc Hv Hlast;
    simplify_eq/=.
  - rewrite fill_lookup_absent; [by rewrite lookup_insert_eq|].
    intros [j Hj]%list_elem_of_lookup. by apply (Hlast (S j)); [lia|].
  - apply (IH _ _ i); [done..|].
    intros j Hij. apply (Hlast (S j)). lia.
Qed.

Lemma fill_dom (columns : list string) (columnPointers : list any)
    (rowMap : gmap string any) :
  length columnPointers = length columns →
  dom (fill rowMap columns columnPointers) = dom rowMap ∪ list_to_set columns.
Proof.
  revert columnPointers rowMap.
  induction columns as [|n columns IH]; intros [|v vals] rowMap Hl; simplify_eq/=.
  - by rewrite union_empty_r_L.
  - rewrite IH by done. rewrite dom_insert_L.
    by rewrite (union_comm_L {[n]}), <-(assoc_L (∪)).
Qed.



(** The names come out of the loop in the order of the rows of the metadata
    result, one per row. *)
Lemma handleGetRecord_loop_names (columns : Rows) data columnNames names :
  handleGetRecord_loop columns data columnNames = inl names →
  ∃ scanned,
    elems names = elems columnNames ++ scanned ∧
    Forall2 (λ row colName, Rows_Scan_string columns row = inl colName) data scanned.
Proof.
  revert columnNames.
  induction data as [|row data IH]; intros columnNames Hloop; simplify_eq/=.
  { exists []. by rewrite app_nil_r. }
  destruct (Rows_Scan_string columns row) as [colName|err] eqn:Hrow; [|done].
  destruct (IH _ Hloop) as (scanned & Hnames & Hscanned).
  exists (colName :: scanned). split; [|by apply Forall2_cons_2].
  rewrite Hnames; simpl. by rewrite <-app_assoc.
Qed.

(** [Row.Scan] hands out the first row of the result, and only when it has
    one value per destination. *)
Lemma Row_Scan_ok (row : Row) n columnPointers :
  Row_Scan row n = inl columnPointers →
  ∃ rows, row = inl rows ∧ head (Rows_data rows) = Some columnPointers ∧
          length columnPointers = n.
Proof.
  destruct row as [rows|err]; simpl; [|done].
  destruct (Rows_data rows) as [|first rest] eqn:Hdata; simpl.
  { by destruct (Rows_Err rows). }
  unfold Rows_Scan. case_decide; [|done].
  destruct (Rows_Close rows); [done|]. intros [= <-].
  exists rows. by rewrite Hdata.
Qed.


(** It never looks at the column names of the result. *)
Lemma Row_Scan_ignores_Columns (rows : Rows) columns n :
  Row_Scan (inl {| Rows_Columns := columns; Rows_data := Rows_data rows;
                   Rows_Err := Rows_Err rows; Rows_Close := Rows_Close rows |}) n =
  Row_Scan (inl rows) n.
Proof. done. Qed.

(** The run of [handleGetRecord], with the two answers of the database
    named. *)
Lemma serve_get_record de r c tableName id :
  segments r = [tableName; id] →
  is_Some (tables de !! tableName) →
  Method r = MethodGet →
  let row := run_query ("SELECT * FROM " +:+ tableName +:+ " WHERE id = $1")
                       [GoString id] c in
  let columns :=
    run_query "SELECT column_name FROM information_schema.columns WHERE table_name = $1"
              [GoString tableName] row.2 in
  serve de r c =
    {| w :=
         match columns.1 with
         | inr err => http_Error (Error err) StatusInternalServerError NewResponseWriter
         | inl rows =>
             match handleGetRecord_loop rows (Rows_data rows) nil_slice with
             | inr err => http_Error (Error err) StatusInternalServerError NewResponseWriter
             | inl columnNames =>
                 match Row_Scan row.1 (len columnNames) with
                 | inr err =>
                     if is_ErrNoRows err then
                       http_Error ("{" +:+ quoted "error" +:+ ": " +:+
                                   quoted "record not found" +:+ "}")
                                  StatusNotFound NewResponseWriter
                     else http_Error (Error err) StatusInternalServerError NewResponseWriter
                 | inl columnPointers =>
                     Encode
                       (GoMap {[ "response" := GoMap {[ "record" :=
                          GoMap (fill_rowMap (elems columnNames) columnPointers) ]} ]})
                       NewResponseWriter
                 end
             end
         end;
       db := columns.2;
       trace :=
         [QueryRow ("SELECT * FROM " +:+ tableName +:+ " WHERE id = $1") [GoString id];
          Query "SELECT column_name FROM information_schema.columns WHERE table_name = $1"
                [GoString tableName]] |}.
Proof.
  intros Hs Ht Hm row columns. rewrite (serve_record _ _ _ tableName id) by done.
  rewrite Hm; simpl. unfold handleGetRecord, db_QueryRow, db_Query; simpl.
  subst columns row.
  destruct (run_query _ [GoString id] c) as [row c1]; simpl.
  destruct (run_query _ [GoString tableName] c1) as [[rows|err] c2]; simpl; [|done].
  destruct (handleGetRecord_loop rows _ _) as [columnNames|err]; simpl; [|done].
  destruct (Row_Scan row _) as [columnPointers|err]; simpl; [done|].
  by destruct (is_ErrNoRows err).
Qed.





End record.

(** ** Table listings *)

Section listing.

Context `{DB : Database} `{MR : MapRange} `{SC : Strconv}.
Implicit Types (de : DbExplorer) (r : Request) (c : conn).

(** Rows of the right width all scan; the result holds one map per row, in
    order, after what it held before. *)
Lemma handleGetTable_loop_ok columns data result :
  Forall (λ row, length row = length columns) data →
  handleGetTable_loop columns data result =
    inl (match data with
         | [] => result
         | _ => mk_slice (elems result ++ (fill_rowMap columns <$> data))
         end).
Proof.
  revert result. induction data as [|row data IH]; intros result Hw; [done|].
  apply Forall_cons in Hw as [Hrow Hw]. simpl. unfold Rows_Scan.
  rewrite decide_True by done. rewrite IH by done.
  destruct data as [|row' data]; simpl; [done|]. by rewrite <-app_assoc.
Qed.

(** The run of [handleGetTable] on a result set whose rows are as wide as
    its column list. *)
Lemma serve_get_table de r c tableName rows columns :
  segments r = [tableName] → tableName ≠ "" →
  is_Some (tables de !! tableName) →
  Method r = MethodGet →
  (run_query (listing_statement r tableName) [] c).1 = inl rows →
  Rows_Columns rows = inl columns →
  Forall (λ row, length row = length columns) (Rows_data rows) →
  w (serve de r c) =
    Encode (GoMap {[ "response" := GoMap {[ "records" := GoSlice
              (match Rows_data rows with
               | [] => nil_slice
               | data => mk_slice ((λ row, GoMap (fill_rowMap columns row)) <$> data)
               end) ]} ]})
           NewResponseWriter.
Proof.
  intros Hs Hne Ht Hm Hq Hc Hw. rewrite (serve_table _ _ _ tableName) by done.
  rewrite Hm; simpl. unfold handleGetTable, db_QueryContext.
  unfold listing_statement in Hq.
  destruct (run_query _ _ _) as [res c']; simpl in *. subst res. rewrite Hc.
  rewrite handleGetTable_loop_ok by done. simpl.
  destruct (Rows_data rows); simpl; [done|]. by rewrite <-list_fmap_compose.
Qed.

(** Rows whose values marshal give records that marshal. *)
Lemma encodable_records columns (data : list (list any)) :
  Forall (Forall (λ v, encodable v = true)) data →
  encodable
    (GoMap {[ "response" := GoMap {[ "records" :=
       GoSlice (mk_slice ((λ row, GoMap (fill_rowMap columns row)) <$> data)) ]} ]}) = true.
Proof.
  intros Hdata. rewrite !encodable_singleton. apply encodable_slice.
  apply Forall_fmap. eapply Forall_impl; [exact Hdata|].
  intros row Hrow; simpl. by apply encodable_fill_rowMap.
Qed.

(** If the database implements LIMIT and OFFSET as a window on the
    [available] rows of the table, a non-empty page whose values marshal has
    [min limit (available - offset)] records. *)
Lemma get_table_page_length de r c tableName rows columns
    (available : list (list any)) (limit offset : nat) :
  segments r = [tableName] → tableName ≠ "" →
  is_Some (tables de !! tableName) →
  Method r = MethodGet →
  (run_query (listing_statement r tableName) [] c).1 = inl rows →
  Rows_Columns rows = inl columns →
  Forall (λ row, length row = length columns) (Rows_data rows) →
  Forall (Forall (λ v, encodable v = true)) (Rows_data rows) →
  Rows_data rows = take limit (drop offset available) →
  Rows_data rows ≠ [] →
  ∃ records,
    is_json_200 (w (serve de r c))
      (GoMap {[ "response" := GoMap {[ "records" := GoSlice (mk_slice records) ]} ]}) ∧
    length records = limit `min` (length available - offset).
Proof.
  intros Hs Hne Ht Hm Hq Hc Hw Hok Hpage Hd.
  rewrite (serve_get_table _ _ _ tableName rows columns) by done.
  destruct (Rows_data rows) as [|row data] eqn:Hdata; [done|].
  eexists. split; [by apply Encode_fresh, encodable_records|].
  by rewrite length_fmap, Hpage, length_take, length_drop.
Qed.


(** A listing whose statement the database refuses is answered 500 with the
    driver's error text as the body. *)
Theorem get_table_query_error de r c tableName err :
  segments r = [tableName] → tableName ≠ "" →
  is_Some (tables de !! tableName) →
  Method r = MethodGet →
  (run_query (listing_statement r tableName) [] c).1 = inr err →
  is_http_Error (w (serve de r c)) StatusInternalServerError (Error err).
Proof.
  intros Hs Hne Ht Hm Hq. rewrite (serve_table _ _ _ tableName) by done.
  rewrite Hm; simpl. unfold handleGetTable, db_QueryContext.
  unfold listing_statement in Hq.
  destruct (run_query _ _ _) as [res c']; simpl in *. subst res.
  apply http_Error_fresh.
Qed.

(** C3, where the code departs from it.  When the statement of a listing
    succeeds and yields no row (an empty table, a limit of 0, an offset past
    the last row), the answer is 200 but [records] is the nil slice
    [result] was declared as, which is encoded as [null]: not an array of
    length 0. *)
Theorem get_table_no_rows_null de r c tableName rows columns :
  segments r = [tableName] → tableName ≠ "" →
  is_Some (tables de !! tableName) →
  Method r = MethodGet →
  (run_query (listing_statement r tableName) [] c).1 = inl rows →
  Rows_Columns rows = inl columns →
  Rows_data rows = [] →
  let σ := serve de r c in
  is_json_200 (w σ)
    (GoMap {[ "response" := GoMap {[ "records" := GoSlice nil_slice ]} ]}) ∧
  encodes_as_array (GoSlice nil_slice) = false.
Proof.
  intros Hs Hne Ht Hm Hq Hc Hd σ. subst σ.
  rewrite (serve_get_table _ _ _ tableName rows columns); try done.
  - rewrite Hd. split; [by apply Encode_fresh|done].
  - by rewrite Hd.
Qed.

End listing.

(** ** What every request has in common *)

Section invariants.

Context `{DB : Database} `{MR : MapRange} `{SC : Strconv}.
Implicit Types (de : DbExplorer) (r : Request) (c : conn).

(** The five routes of [ServeHTTP]. *)
Lemma route_cases de r :
  segments r = [""] ∨
  (segments r ≠ [""] ∧ tables de !! hd "" (segments r) = None) ∨
  (∃ tableName,
     segments r = [tableName] ∧ tableName ≠ "" ∧ is_Some (tables de !! tableName)) ∨
  (∃ tableName id,
     segments r = [tableName; id] ∧ is_Some (tables de !! tableName)) ∨
  (3 ≤ length (segments r) ∧ is_Some (tables de !! hd "" (segments r))).
Proof.
  destruct (decide (segments r = [""])) as [|Hroot]; [by left|right].
  destruct (tables de !! hd "" (segments r)) as [columns|] eqn:Ht; [right|by left].
  destruct (segments r) as [|tableName [|id [|third rest]]] eqn:Hs.
  - by apply Split_nonempty in Hs.
  - left. exists tableName. split_and!; [done|congruence|by eexists].
  - right; left. exists tableName, id. split; [done|by eexists].
  - right; right. split; [simpl; lia|by eexists].
Qed.

Local Ltac error_shape :=
  eapply shape_error; [|reflexivity];
  unfold error_statuses; rewrite !elem_of_cons; tauto.

Lemma handleGetTable_shape de r tableName c :
  response_shape (Method r)
    (w (handleGetTable de r tableName {| w := NewResponseWriter; db := c; trace := [] |})).
Proof.
  unfold handleGetTable, db_QueryContext; simpl.
  destruct (run_query _ _ c) as [[rows|err] c']; simpl; [|error_shape].
  destruct (Rows_Columns rows) as [columns|err]; simpl; [|error_shape].
  destruct (handleGetTable_loop _ _ _) as [result|err]; simpl; [|error_shape].
  by eapply shape_json.
Qed.

Lemma handlePutTable_shape de r tableName c :
  Method r = MethodPut →
  response_shape (Method r)
    (w (handlePutTable de r tableName {| w := NewResponseWriter; db := c; trace := [] |})).
Proof.
  intros Hm. unfold handlePutTable.
  destruct (Decode (Body r)) as [data|err]; simpl; [|error_shape].
  destruct (data !! "id") as [id|]; simpl; [|error_shape].
  destruct (handlePutTable_loop _ _ _) as [setClauses values].
  unfold db_Exec; simpl.
  destruct (run_exec _ _ c) as [[err|] c']; simpl; [error_shape|].
  by eapply shape_typed_json.
Qed.

Lemma handleGetRecord_shape de r tableName id c :
  response_shape (Method r)
    (w (handleGetRecord de r tableName id
          {| w := NewResponseWriter; db := c; trace := [] |})).
Proof.
  unfold handleGetRecord, db_QueryRow, db_Query; simpl.
  destruct (run_query _ [GoString id] c) as [row c1]; simpl.
  destruct (run_query _ [GoString tableName] c1) as [[rows|err] c2]; simpl;
    [|error_shape].
  destruct (handleGetRecord_loop rows _ _) as [columnNames|err]; simpl; [|error_shape].
  destruct (Row_Scan row _) as [columnPointers|err]; simpl; [by eapply shape_json|].
  destruct (is_ErrNoRows err); error_shape.
Qed.

Lemma serve_shape de r c : response_shape (Method r) (w (serve de r c)).
Proof.
  destruct (route_cases de r)
    as [Hs|[[Hs Ht]|[(tableName & Hs & Hne & Ht)|[(tableName & id & Hs & Ht)|[Hl Ht]]]]].
  - rewrite serve_root by done. by eapply shape_json.
  - rewrite serve_unknown by done. simpl. error_shape.
  - rewrite (serve_table _ _ _ tableName) by done. simpl.
    destruct (decide (Method r = MethodGet)); [apply handleGetTable_shape|].
    destruct (decide (Method r = MethodPut)); [by apply handlePutTable_shape|].
    simpl. error_shape.
  - rewrite (serve_record _ _ _ tableName id) by done. simpl.
    destruct (decide (Method r = MethodGet)); [apply handleGetRecord_shape|].
    repeat case_decide; simpl; error_shape.
  - rewrite serve_deeper by done. by apply shape_untouched.
Qed.

(** The calls a request makes on the handle, by route. *)
Lemma serve_trace_cases de r c :
  trace (serve de r c) = [] ∨
  (∃ tableName,
     segments r = [tableName] ∧ tableName ≠ "" ∧ is_Some (tables de !! tableName) ∧
     Method r = MethodGet ∧
     trace (serve de r c) = [QueryContext (listing_statement r tableName) []]) ∨
  (∃ tableName data id query values,
     segments r = [tableName] ∧ tableName ≠ "" ∧ is_Some (tables de !! tableName) ∧
     Method r = MethodPut ∧
     Decode (Body r) = inl data ∧ data !! "id" = Some id ∧
     trace (serve de r c) = [Exec query values] ∧ last values = Some id) ∨
  (∃ tableName id,
     segments r = [tableName; id] ∧ is_Some (tables de !! tableName) ∧
     Method r = MethodGet ∧
     trace (serve de r c) =
       [QueryRow ("SELECT * FROM " +:+ tableName +:+ " WHERE id = $1") [GoString id];
        Query "SELECT column_name FROM information_schema.columns WHERE table_name = $1"
              [GoString tableName]]).
Proof.
  destruct (route_cases de r)
    as [Hs|[[Hs Ht]|[(tableName & Hs & Hne & Ht)|[(tableName & id & Hs & Ht)|[Hl Ht]]]]].
  - left. by rewrite serve_root.
  - left. by rewrite serve_unknown.
  - rewrite (serve_table _ _ _ tableName) by done. simpl.
    destruct (decide (Method r = MethodGet)) as [Hget|Hget].
    { right; left. exists tableName. split_and!; try done.
      unfold handleGetTable, listing_statement, db_QueryContext; simpl.
      destruct (run_query _ _ c) as [[rows|err] c']; simpl; [|done].
      destruct (Rows_Columns rows) as [columns|err]; simpl; [|done].
      by destruct (handleGetTable_loop _ _ _). }
    destruct (decide (Method r = MethodPut)) as [Hput|Hput]; [|by left].
    unfold handlePutTable.
    destruct (Decode (Body r)) as [data|err] eqn:Hbody; simpl; [|by left].
    destruct (data !! "id") as [id|] eqn:Hid; simpl; [|by left].
    destruct (handlePutTable_loop _ _ _) as [setClauses values].
    right; right; left. eexists tableName, data, id, _, (values ++ [id]).
    split_and!; try done.
    + unfold db_Exec; simpl. by destruct (run_exec _ _ c) as [[err|] c'].
    + apply last_snoc.
  - rewrite (serve_record _ _ _ tableName id) by done. simpl.
    destruct (decide (Method r = MethodGet)) as [Hget|Hget].
    { right; right; right. exists tableName, id. split_and!; try done.
      unfold handleGetRecord, db_QueryRow, db_Query; simpl.
      destruct (run_query _ [GoString id] c) as [row c1]; simpl.
      destruct (run_query _ [GoString tableName] c1) as [[rows|err] c2]; simpl; [|done].
      destruct (handleGetRecord_loop rows _ _) as [columnNames|err]; simpl; [|done].
      destruct (Row_Scan row _) as [columnPointers|err]; simpl; [done|].
      by destruct (is_ErrNoRows err). }
    left. by repeat case_decide.
  - left. by rewrite serve_deeper.
Qed.

(** Whatever the request, the Catalog and the database: the status is one of
    200, 400, 404, 405, 500 and 501; the body is written at most once, so an
    error never follows a partial document; every status other than 200
    comes from [http.Error], as plain text with sniffing turned off; a 200
    carries one JSON document or nothing; and the content type
    [application/json] is set on the answer to a PUT only. *)
Theorem responses_well_formed de r c :
  let rw := w (serve de r c) in
  StatusCode rw ∈ StatusOK :: error_statuses ∧
  length (written rw) ≤ 1 ∧
  (StatusCode rw ≠ StatusOK →
     (∃ msg, is_http_Error rw (StatusCode rw) msg) ∧
     Header rw !! "X-Content-Type-Options" = Some ["nosniff"]) ∧
  (StatusCode rw = StatusOK → written rw = [] ∨ ∃ v, written rw = [Encoded v]) ∧
  (Header rw !! "Content-Type" = Some ["application/json"] → Method r = MethodPut).
Proof.
  intros rw. subst rw.
  destruct (serve_shape de r c) as [->|code msg Hcode ->|v ->|v Hput ->].
  - split_and!; simpl; try done; try lia; [apply list_elem_of_here|by left].
  - assert (code ≠ StatusOK) as Hne.
    { intros ->. unfold error_statuses in Hcode.
      rewrite !elem_of_cons, elem_of_nil in Hcode. by intuition. }
    split_and!; simpl; try done; try lia.
    + by apply list_elem_of_further.
    + intros _. split; [|done]. exists msg. apply http_Error_fresh.
  - unfold Encode. destruct (encodable v).
    + split_and!; simpl; try done; try lia; [apply list_elem_of_here|by right; exists v].
    + split_and!; simpl; try done; try lia; [apply list_elem_of_here|by left].
  - unfold Encode. destruct (encodable v).
    + split_and!; simpl; try done; try lia; [apply list_elem_of_here|by right; exists v].
    + split_and!; simpl; try done; try lia; [apply list_elem_of_here|by left].
Qed.

(** The database is called only for a table of the Catalog, on a path of one
    or two segments, with method GET or PUT; a request makes at most two
    calls. *)
Theorem database_calls_need_known_table de r c call :
  call ∈ trace (serve de r c) →
  segments r ≠ [""] ∧
  is_Some (tables de !! hd "" (segments r)) ∧
  length (segments r) ≤ 2 ∧
  (Method r = MethodGet ∨ Method r = MethodPut) ∧
  length (trace (serve de r c)) ≤ 2.
Proof.
  intros Hcall.
  destruct (serve_trace_cases de r c)
    as [Ht|[(tableName & Hs & Hne & Hk & Hm & Ht)
           |[(tableName & data & id & query & values & Hs & Hne & Hk & Hm & _ & _ & Ht & _)
            |(tableName & id & Hs & Hk & Hm & Ht)]]];
    rewrite Ht in *.
  - by apply elem_of_nil in Hcall.
  - rewrite Hs; simpl. split_and!; [congruence|done|lia|by left|lia].
  - rewrite Hs; simpl. split_and!; [congruence|done|lia|by right|lia].
  - rewrite Hs; simpl. split_and!; [congruence|done|lia|by left|lia].
Qed.

(** [Exec] is called only by a PUT on [/{table}] whose body decoded into an
    object with a member [id]; it is then the only call of the request, and
    the id is its last bound argument. *)
Theorem exec_only_on_put de r c query values :
  Exec query values ∈ trace (serve de r c) →
  Method r = MethodPut ∧
  length (segments r) = 1 ∧
  trace (serve de r c) = [Exec query values] ∧
  ∃ data id, Decode (Body r) = inl data ∧ data !! "id" = Some id ∧ last values = Some id.
Proof.
  intros Hcall.
  destruct (serve_trace_cases de r c)
    as [Ht|[(tableName & Hs & Hne & Hk & Hm & Ht)
           |[(tableName & data & id & query' & values' & Hs & Hne & Hk & Hm & Hb & Hid & Ht & Hl)
            |(tableName & id & Hs & Hk & Hm & Ht)]]];
    rewrite Ht in *.
  - by apply elem_of_nil in Hcall.
  - by apply list_elem_of_singleton in Hcall.
  - apply list_elem_of_singleton in Hcall. simplify_eq.
    rewrite Hs. split_and!; try done. by exists data, id.
  - rewrite !elem_of_cons, elem_of_nil in Hcall. by destruct Hcall as [|[|]].
Qed.

End invariants.

(** ** Edges of the handlers *)

Section edges.

Context `{DB : Database} `{MR : MapRange} `{SC : Strconv}.
Implicit Types (de : DbExplorer) (r : Request) (c : conn).

Lemma TrimRight_snoc s (x : ascii) :
  Strings.TrimRight (s +:+ String x "") x = Strings.TrimRight s x.
Proof.
  induction s as [|a s IH]; simpl.
  - by rewrite Ascii.eqb_refl.
  - by rewrite IH.
Qed.

Lemma Trim_leading s (x : ascii) : Strings.Trim (String x s) x = Strings.Trim s x.
Proof. unfold Strings.Trim; simpl. by rewrite Ascii.eqb_refl. Qed.

Lemma Trim_trailing s (x : ascii) :
  Strings.Trim (s +:+ String x "") x = Strings.Trim s x.
Proof.
  unfold Strings.Trim. induction s as [|a s IH]; simpl.
  - by rewrite Ascii.eqb_refl.
  - destruct (Ascii.eqb a x); [done|]. apply (TrimRight_snoc (String a s)).
Qed.

(** The handlers read the path through [segments] only. *)
Lemma serve_same_segments de r path c :
  Strings.Trim path "/" = Strings.Trim (URL_Path r) "/" →
  serve de (with_path r path) c = serve de r c.
Proof.
  intros Htrim. unfold serve, ServeHTTP, segments; simpl. by rewrite Htrim.
Qed.

(** Slashes around the path do not count: a request is served the same
    with one more slash in front of its path, or one more after it, so
    [/items/] is [/items] and [//items/1] is [/items/1]. *)
Theorem outer_slashes_ignored de r c :
  serve de (with_path r (String "/" (URL_Path r))) c = serve de r c ∧
  serve de (with_path r (URL_Path r +:+ "/")) c = serve de r c.
Proof.
  split; apply serve_same_segments; [apply Trim_leading|apply Trim_trailing].
Qed.

(** PUT with a body that has [id] and nothing else still sends its UPDATE,
    with an empty SET clause and the id as the only bound argument. *)
Theorem put_table_only_id de r c tableName data id :
  segments r = [tableName] → tableName ≠ "" →
  is_Some (tables de !! tableName) →
  Method r = MethodPut →
  Decode (Body r) = inl data →
  data !! "id" = Some id →
  (∀ key, key ≠ "id" → data !! key = None) →
  trace (serve de r c) =
    [Exec ("UPDATE " +:+ tableName +:+ " SET  WHERE id = $1") [id]].
Proof.
  intros Hs Hne Ht Hm Hb Hid Honly. rewrite (serve_table _ _ _ tableName) by done.
  rewrite Hm; simpl. unfold handlePutTable. rewrite Hb; simpl. rewrite Hid.
  rewrite handlePutTable_loop_spec; simpl.
  assert (filter (λ field : string * any, field.1 ≠ "id") (range data) = []) as ->.
  { apply Permutation_nil_r.
    rewrite (filter_delete_Permutation data "id") by apply range_Permutation.
    assert (delete "id" data = ∅) as ->; [|by rewrite map_to_list_empty].
    apply map_eq; intros key. rewrite lookup_empty, lookup_delete.
    case_decide; [done|]. by apply Honly. }
  simpl. unfold db_Exec; simpl. by destruct (run_exec _ _ c) as [[err|] c'].
Qed.

(** GET on [/{table}/{id}] scans the selected row into as many
    destinations as the metadata query listed names.  When the row has
    another number of values (the metadata query is not restricted to a
    schema, so a table of the same name elsewhere adds its columns; a table
    dropped since start-up lists none), the answer is 500 with the count
    mismatch reported by [Scan], whatever the row holds. *)
Theorem get_record_column_count_mismatch de r c tableName id
    rows columnNames found first rest :
  segments r = [tableName; id] →
  is_Some (tables de !! tableName) →
  Method r = MethodGet →
  let row := run_query ("SELECT * FROM " +:+ tableName +:+ " WHERE id = $1")
                       [GoString id] c in
  let columns :=
    run_query "SELECT column_name FROM information_schema.columns WHERE table_name = $1"
              [GoString tableName] row.2 in
  columns.1 = inl rows →
  handleGetRecord_loop rows (Rows_data rows) nil_slice = inl columnNames →
  row.1 = inl found →
  Rows_data found = first :: rest →
  length first ≠ len columnNames →
  is_http_Error (w (serve de r c)) StatusInternalServerError
    ("sql: expected " +:+ pretty (length first) +:+
     " destination arguments in Scan, not " +:+ pretty (len columnNames)).
Proof.
  intros Hs Ht Hm row columns Hc Hloop Hrow Hdata Hlen.
  rewrite (serve_get_record _ _ _ tableName id) by done.
  fold row. fold columns. simpl. rewrite Hc, Hloop, Hrow; simpl. rewrite Hdata.
  unfold Rows_Scan. rewrite decide_False by done. simpl. apply http_Error_fresh.
Qed.

(** A listing fails late when [Columns] fails or a row does not scan: the
    answer is then 500 with that error's text and nothing else, the records
    decoded before the failing row being dropped. *)
Theorem get_table_late_errors de r c tableName rows :
  segments r = [tableName] → tableName ≠ "" →
  is_Some (tables de !! tableName) →
  Method r = MethodGet →
  (run_query (listing_statement r tableName) [] c).1 = inl rows →
  (∀ err, Rows_Columns rows = inr err →
     is_http_Error (w (serve de r c)) StatusInternalServerError (Error err)) ∧
  (∀ columns good bad rest,
     Rows_Columns rows = inl columns →
     Rows_data rows = good ++ bad :: rest →
     Forall (λ row, length row = length columns) good →
     length bad ≠ length columns →
     is_http_Error (w (serve de r c)) StatusInternalServerError
       ("sql: expected " +:+ pretty (length bad) +:+
        " destination arguments in Scan, not " +:+ pretty (length columns))).
Proof.
  intros Hs Hne Ht Hm Hq. rewrite (serve_table _ _ _ tableName) by done.
  rewrite Hm; simpl. unfold handleGetTable, db_QueryContext.
  unfold listing_statement in Hq.
  destruct (run_query _ _ _) as [res c']; simpl in *. subst res. split.
  - intros err ->. apply http_Error_fresh.
  - intros columns good bad rest -> -> Hgood Hbad.
    assert (∀ result, handleGetTable_loop columns (good ++ bad :: rest) result =
      inr (errorString ("sql: expected " +:+ pretty (length bad) +:+
             " destination arguments in Scan, not " +:+ pretty (length columns)))) as ->.
    { induction Hgood as [|row good Hrow Hgood IH]; intros result; simpl.
      - unfold Rows_Scan. by rewrite decide_False.
      - unfold Rows_Scan at 1. rewrite decide_True by done. apply IH. }
    apply http_Error_fresh.
Qed.

(** In a listing of rows whose values marshal, every record has the column
    names of the result set as its keys and no other, and holds under the
    i-th name the i-th value of its row (under a name the result set lists
    twice, the last of its values). *)
Theorem get_table_record_fields de r c tableName rows columns :
  segments r = [tableName] → tableName ≠ "" →
  is_Some (tables de !! tableName) →
  Method r = MethodGet →
  (run_query (listing_statement r tableName) [] c).1 = inl rows →
  Rows_Columns rows = inl columns →
  Forall (λ row, length row = length columns) (Rows_data rows) →
  Forall (Forall (λ v, encodable v = true)) (Rows_data rows) →
  Rows_data rows ≠ [] →
  ∃ records,
    is_json_200 (w (serve de r c))
      (GoMap {[ "response" := GoMap {[ "records" := GoSlice (mk_slice records) ]} ]}) ∧
    ∀ k row,
      Rows_data rows !! k = Some row →
      ∃ rowMap : gmap string any,
        records !! k = Some (GoMap rowMap) ∧
        dom rowMap = list_to_set columns ∧
        ∀ i colName val,
          columns !! i = Some colName →
          row !! i = Some val →
          (∀ j, i < j → columns !! j ≠ Some colName) →
          rowMap !! colName = Some val.
Proof.
  intros Hs Hne Ht Hm Hq Hc Hw Hok Hd.
  rewrite (serve_get_table _ _ _ tableName rows columns) by done.
  destruct (Rows_data rows) as [|row0 data] eqn:Hdata; [done|].
  eexists. split; [by apply Encode_fresh, encodable_records|].
  intros k row Hk. exists (fill_rowMap columns row). split_and!.
  - by rewrite list_lookup_fmap, Hk.
  - unfold fill_rowMap. rewrite fill_dom.
    + by rewrite dom_empty_L, union_empty_l_L.
    + by eapply Forall_lookup_1 in Hw.
  - intros i colName val. apply fill_lookup.
Qed.

(** The error of [Encode] is dropped: when a row of a listing holds, under
    one of its (distinct) column names, a value that does not marshal (a
    float64 NaN or infinity), the handler writes nothing at all, neither a
    status nor a body, and the client gets the empty 200 of the HTTP
    layer. *)
Theorem get_table_unencodable_value de r c tableName rows columns k row i value :
  segments r = [tableName] → tableName ≠ "" →
  is_Some (tables de !! tableName) →
  Method r = MethodGet →
  (run_query (listing_statement r tableName) [] c).1 = inl rows →
  Rows_Columns rows = inl columns →
  Forall (λ row, length row = length columns) (Rows_data rows) →
  NoDup columns →
  Rows_data rows !! k = Some row →
  row !! i = Some value →
  encodable value = false →
  let rw := w (serve de r c) in
  wroteHeader rw = None ∧ written rw = [] ∧ StatusCode rw = StatusOK.
Proof.
  intros Hs Hne Ht Hm Hq Hc Hw Hnodup Hk Hi Hvalue rw. subst rw.
  rewrite (serve_get_table _ _ _ tableName rows columns) by done.
  rewrite Encode_unencodable; [done|].
  apply not_true_is_false. rewrite !encodable_singleton. intros Hok.
  destruct (Rows_data rows) as [|row0 data] eqn:Hdata; [done|].
  apply encodable_slice in Hok.
  apply (Forall_lookup_1 _ _ k (GoMap (fill_rowMap columns row))) in Hok;
    [|by rewrite list_lookup_fmap, Hk].
  apply encodable_map in Hok.
  assert (length row = length columns) as Hwidth by (by eapply Forall_lookup_1 in Hw).
  destruct (lookup_lt_is_Some_2 columns i) as [colName Hcol].
  { rewrite <-Hwidth. by apply lookup_lt_Some in Hi. }
  assert (fill_rowMap columns row !! colName = Some value) as Hlookup.
  { apply (fill_lookup _ _ _ i); [done..|].
    intros j Hij Hj. assert (i = j) by (by eapply NoDup_lookup). lia. }
  apply Hok in Hlookup. congruence.
Qed.

(** The answer to a listing, as a function of the database's answer. *)
Lemma handleGetTable_answer de r tableName c :
  w (handleGetTable de r tableName {| w := NewResponseWriter; db := c; trace := [] |}) =
    match (run_query (listing_statement r tableName) [] c).1 with
    | inr err => http_Error (Error err) StatusInternalServerError NewResponseWriter
    | inl rows =>
        match Rows_Columns rows with
        | inr err => http_Error (Error err) StatusInternalServerError NewResponseWriter
        | inl columns =>
            match handleGetTable_loop columns (Rows_data rows) nil_slice with
            | inr err => http_Error (Error err) StatusInternalServerError NewResponseWriter
            | inl result =>
                Encode (GoMap {[ "response" :=
                          GoMap {[ "records" := GoSlice (slice_fmap GoMap result) ]} ]})
                       NewResponseWriter
            end
        end
    end.
Proof.
  unfold handleGetTable, listing_statement, db_QueryContext; simpl.
  destruct (run_query _ _ c) as [[rows|err] c']; simpl; [|done].
  destruct (Rows_Columns rows) as [columns|err]; simpl; [|done].
  by destruct (handleGetTable_loop _ _ _).
Qed.

(** The handler keeps nothing from one request to the next: when the
    database answers a query the same in every state (nothing else writes to
    it), a request other than PUT gets the same response whatever was served
    before it, so a repeated GET is answered identically. *)
Theorem reads_repeatable de r c c' :
  (∀ query args c1 c2, (run_query query args c1).1 = (run_query query args c2).1) →
  Method r ≠ MethodPut →
  w (serve de r c) = w (serve de r c') ∧
  w (serve de r (db (serve de r c))) = w (serve de r c).
Proof.
  intros Hstable Hm.
  assert (∀ c1 c2, w (serve de r c1) = w (serve de r c2)) as Hsame; [|by split].
  clear c c'. intros c1 c2.
  destruct (route_cases de r)
    as [Hs|[[Hs Ht]|[(tableName & Hs & Hne & Ht)|[(tableName & id & Hs & Ht)|[Hl Ht]]]]].
  - by rewrite !serve_root.
  - by rewrite !serve_unknown.
  - rewrite !(serve_table _ _ _ tableName) by done. simpl.
    destruct (decide (Method r = MethodGet)) as [Hget|Hget].
    + rewrite !handleGetTable_answer. by rewrite (Hstable _ _ c1 c2).
    + by destruct (decide (Method r = MethodPut)).
  - destruct (decide (Method r = MethodGet)) as [Hget|Hget].
    + rewrite !(serve_get_record _ _ _ tableName id) by done. simpl.
      rewrite (Hstable _ [GoString id] c1 c2).
      by rewrite (Hstable _ [GoString tableName] (run_query _ [GoString id] c1).2
                          (run_query ("SELECT * FROM " +:+ tableName +:+ " WHERE id = $1")
                                     [GoString id] c2).2).
    + rewrite !(serve_record _ _ _ tableName id) by done. simpl.
      destruct (decide (Method r = MethodGet)); [done|]. by repeat case_decide.
  - by rewrite !serve_deeper.
Qed.

End edges.

(** ** Start-up *)

Section startup.

Context `{DB : Database} `{SC : Strconv}.

Lemma loadTables_loop_keys (rows : Rows) data names tables :
  Forall2 (λ row name, Rows_Scan_string rows row = inl name) data names →
  ∃ loaded,
    loadTables_loop rows data tables = inl loaded ∧
    ∀ tableName,
      is_Some (loaded !! tableName) ↔ tableName ∈ names ∨ is_Some (tables !! tableName).
Proof.
  intros Hscan. revert tables.
  induction Hscan as [|row name data names Hrow Hscan IH]; intros tables; simpl.
  - exists tables. split; [done|]. intros tableName. rewrite elem_of_nil. tauto.
  - rewrite Hrow. destruct (IH (<[name := nil_slice]> tables)) as (loaded & -> & Hkeys).
    exists loaded. split; [done|]. intros tableName.
    rewrite Hkeys, elem_of_cons, lookup_insert_is_Some.
    destruct (decide (name = tableName)); intuition congruence.
Qed.

Lemma loadTables_loop_fails (rows : Rows) good bad rest names err tables :
  Forall2 (λ row name, Rows_Scan_string rows row = inl name) good names →
  Rows_Scan_string rows bad = inr err →
  loadTables_loop rows (good ++ bad :: rest) tables = inr err.
Proof.
  intros Hscan Hbad. revert tables.
  induction Hscan as [|row name data names' Hrow Hscan IH]; intros tables; simpl.
  - by rewrite Hbad.
  - rewrite Hrow. apply IH.
Qed.

(** When the introspection query succeeds and every row of its answer
    scans into a name, [NewDbExplorer] returns an explorer whose Catalog has
    exactly those names as keys (a name listed twice is one key), each with
    a nil column list. *)
Theorem NewDbExplorer_catalog c rows names :
  (run_query "SELECT table_name FROM information_schema.tables WHERE table_schema = 'public'"
             [] c).1 = inl rows →
  Forall2 (λ row name, Rows_Scan_string rows row = inl name) (Rows_data rows) names →
  ∃ de,
    (NewDbExplorer c).1 = inl de ∧
    (∀ tableName, is_Some (tables de !! tableName) ↔ tableName ∈ names) ∧
    (∀ tableName columns, tables de !! tableName = Some columns → columns = nil_slice).
Proof.
  intros Hq Hscan.
  destruct (loadTables_loop_keys rows _ _ ∅ Hscan) as (loaded & Hloop & Hkeys).
  assert ((NewDbExplorer c).1 = inl {| tables := loaded |}) as Hnew.
  { unfold NewDbExplorer, loadTables.
    destruct (run_query _ _ c) as [res c']; simpl in *. subst res. by rewrite Hloop. }
  exists {| tables := loaded |}. split_and!; [done| |].
  - intros tableName; simpl. rewrite Hkeys, lookup_empty, is_Some_alt. tauto.
  - intros tableName columns. by apply NewDbExplorer_no_columns with (c := c).
Qed.

(** Start-up fails, with no explorer, when the introspection query fails,
    and also when one row of its answer does not scan into a string (a NULL
    name, a row of another width): the names scanned before it are lost and
    the error is the one of that row. *)
Theorem NewDbExplorer_fails c :
  (∀ err,
     (run_query
        "SELECT table_name FROM information_schema.tables WHERE table_schema = 'public'"
        [] c).1 = inr err →
     (NewDbExplorer c).1 = inr err) ∧
  (∀ rows good names bad rest err,
     (run_query
        "SELECT table_name FROM information_schema.tables WHERE table_schema = 'public'"
        [] c).1 = inl rows →
     Rows_data rows = good ++ bad :: rest →
     Forall2 (λ row name, Rows_Scan_string rows row = inl name) good names →
     Rows_Scan_string rows bad = inr err →
     (NewDbExplorer c).1 = inr err).
Proof.
  split.
  - intros err Hq. unfold NewDbExplorer, loadTables.
    destruct (run_query _ _ c) as [res c']; simpl in *. by subst res.
  - intros rows good names bad rest err Hq Hdata Hgood Hbad.
    unfold NewDbExplorer, loadTables.
    destruct (run_query _ _ c) as [res c']; simpl in *. subst res.
    by rewrite Hdata, (loadTables_loop_fails _ _ _ _ names err).
Qed.

End startup.

(** * The fixture at work *)

(** The requests of [main_test.go], and a few more, served by the fixture;
    each lemma instantiates one of the theorems above. *)

Section examples.

Local Existing Instances Fixture.database Fixture.strconv.

Lemma explorer_loaded :
  (@NewDbExplorer Fixture.database Fixture.strconv 0).1 = inl Fixture.explorer.
Proof. vm_compute. reflexivity. Qed.

Lemma unknown_table_not_found_witness :
  is_http_Error (w (Fixture.run Fixture.forward (Fixture.request "DELETE" "/unknown_table/7")))
    StatusNotFound
    ("{" +:+ quoted "error" +:+ ": " +:+ quoted "unknown table" +:+ "}") ∧
  no_database_access
    (Fixture.run Fixture.forward (Fixture.request "DELETE" "/unknown_table/7")) 0.
Proof.
  apply (@unknown_table_not_found Fixture.database Fixture.forward Fixture.strconv
           Fixture.explorer (Fixture.request "DELETE" "/unknown_table/7") 0).
  - vm_compute. discriminate.
  - vm_compute. reflexivity.
Defined.

Lemma deeper_path_writes_nothing_witness :
  wroteHeader (w (Fixture.run Fixture.forward (Fixture.request "GET" "/items/1/title"))) = None ∧
  written (w (Fixture.run Fixture.forward (Fixture.request "GET" "/items/1/title"))) = [].
Proof.
  destruct (@deeper_path_writes_nothing Fixture.database Fixture.forward Fixture.strconv
              Fixture.explorer (Fixture.request "GET" "/items/1/title") 0)
    as (Hcode & Hbody & _).
  - vm_compute. lia.
  - vm_compute. eauto.
  - split; [exact Hcode|exact Hbody].
Defined.

(** POST on a two-segment path whose table the Catalog does not know: the
    table check answers first, with 404. *)
Lemma post_unknown_table_is_not_found :
  segments (Fixture.request "POST" "/nope/1") = ["nope"; "1"] ∧
  Method (Fixture.request "POST" "/nope/1") = MethodPost ∧
  tables Fixture.explorer !! "nope" = None ∧
  StatusCode (w (Fixture.run Fixture.forward (Fixture.request "POST" "/nope/1"))) =
    StatusNotFound ∧
  StatusCode (w (Fixture.run Fixture.forward (Fixture.request "POST" "/nope/1"))) ≠
    StatusNotImplemented.
Proof. vm_compute. split_and!; try reflexivity. discriminate. Qed.

Lemma post_delete_not_implemented_witness :
  is_http_Error (w (Fixture.run Fixture.forward (Fixture.request "DELETE" "/items/1")))
    StatusNotImplemented "DELETE operation not implemented for this table" ∧
  no_database_access (Fixture.run Fixture.forward (Fixture.request "DELETE" "/items/1")) 0.
Proof.
  apply (@post_delete_not_implemented Fixture.database Fixture.forward Fixture.strconv
           Fixture.explorer (Fixture.request "DELETE" "/items/1") 0 "items" "1").
  - vm_compute. reflexivity.
  - vm_compute. eauto.
  - right. reflexivity.
Defined.

Lemma get_table_statement_witness :
  trace (Fixture.run Fixture.forward
           (Fixture.with_query (Fixture.with_query (Fixture.request "GET" "/items")
                                  "limit" "1") "offset" "1")) =
    [QueryContext "SELECT * FROM items LIMIT 1 OFFSET 1" []].
Proof.
  apply (@get_table_statement Fixture.database Fixture.forward Fixture.strconv
           Fixture.explorer
           (Fixture.with_query (Fixture.with_query (Fixture.request "GET" "/items")
                                  "limit" "1") "offset" "1") 0 "items").
  - vm_compute. reflexivity.
  - discriminate.
  - vm_compute. eauto.
  - reflexivity.
Defined.





(** [GET /], the map walked backwards. *)
Lemma root_lists_tables_sorted_witness :
  is_json_200 (w (Fixture.run Fixture.backward (Fixture.request "GET" "/")))
    (GoMap {[ "response" :=
       GoMap {[ "tables" := GoSlice (mk_slice [GoString "items"; GoString "users"]) ]} ]}).
Proof.
  destruct (@root_lists_tables_sorted Fixture.database Fixture.backward Fixture.strconv
              Fixture.explorer (Fixture.request "GET" "/") 0) as (Hjson & _).
  - vm_compute. reflexivity.
  - exact Hjson.
Defined.





(** [GET /items?limit=0] *)
Lemma get_table_no_rows_null_witness :
  is_json_200
    (w (Fixture.run Fixture.forward
          (Fixture.with_query (Fixture.request "GET" "/items") "limit" "0")))
    (GoMap {[ "response" := GoMap {[ "records" := GoSlice nil_slice ]} ]}) ∧
  encodes_as_array (GoSlice nil_slice) = false.
Proof.
  apply (@get_table_no_rows_null Fixture.database Fixture.forward Fixture.strconv
           Fixture.explorer
           (Fixture.with_query (Fixture.request "GET" "/items") "limit" "0")
           0 "items" (Fixture.result_set Fixture.items_columns []) Fixture.items_columns).
  - vm_compute. reflexivity.
  - discriminate.
  - vm_compute. eauto.
  - reflexivity.
  - reflexivity.
  - reflexivity.
  - reflexivity.
Defined.

(** [PATCH /items] *)
Lemma other_methods_not_allowed_witness :
  is_http_Error (w (Fixture.run Fixture.forward (Fixture.request "PATCH" "/items")))
    StatusMethodNotAllowed "Method not allowed".
Proof.
  apply (@other_methods_not_allowed Fixture.database Fixture.forward Fixture.strconv
           Fixture.explorer (Fixture.request "PATCH" "/items") 0).
  - vm_compute. discriminate.
  - vm_compute. eauto.
  - left. split_and!; [reflexivity|discriminate..].
Defined.

(** [PUT /items] with the body [{"id": 1}]: nothing to set. *)
Lemma put_table_exec_error_witness :
  is_http_Error
    (w (Fixture.run Fixture.forward
          (Fixture.with_body (Fixture.request "PUT" "/items")
             (GoMap {[ "id" := GoFloat64 1 ]}))))
    StatusInternalServerError "Error updating record: pq: syntax error".
Proof.
  apply (@put_table_exec_error Fixture.database Fixture.forward Fixture.strconv
           Fixture.explorer
           (Fixture.with_body (Fixture.request "PUT" "/items")
              (GoMap {[ "id" := GoFloat64 1 ]}))
           0 "items" {[ "id" := GoFloat64 1 ]} (GoFloat64 1)
        ltac:(vm_compute; reflexivity) ltac:(discriminate) ltac:(vm_compute; eauto)
        ltac:(reflexivity) ltac:(reflexivity) ltac:(vm_compute; reflexivity)
        "UPDATE items SET  WHERE id = $1" [GoFloat64 1] (errorString "pq: syntax error")).
  - vm_compute. reflexivity.
  - reflexivity.
Defined.


(** [GET /items?limit=abc] *)
Lemma get_table_query_error_witness :
  is_http_Error
    (w (Fixture.run Fixture.forward
          (Fixture.with_query (Fixture.request "GET" "/items") "limit" "abc")))
    StatusInternalServerError "pq: syntax error".
Proof.
  apply (@get_table_query_error Fixture.database Fixture.forward Fixture.strconv
           Fixture.explorer
           (Fixture.with_query (Fixture.request "GET" "/items") "limit" "abc")
           0 "items" (errorString "pq: syntax error")).
  - vm_compute. reflexivity.
  - discriminate.
  - vm_compute. eauto.
  - reflexivity.
  - reflexivity.
Defined.

(** [GET /items]: its one call is made for a table of the Catalog. *)
Lemma database_calls_need_known_table_witness :
  is_Some (tables Fixture.explorer !! hd "" (segments (Fixture.request "GET" "/items"))) ∧
  length (trace (Fixture.run Fixture.forward (Fixture.request "GET" "/items"))) ≤ 2.
Proof.
  destruct (@database_calls_need_known_table Fixture.database Fixture.forward
              Fixture.strconv Fixture.explorer (Fixture.request "GET" "/items") 0
              (QueryContext "SELECT * FROM items LIMIT 100 OFFSET 0" []))
    as (_ & Hknown & _ & _ & Hcalls).
  - vm_compute. apply list_elem_of_here.
  - split; [exact Hknown|exact Hcalls].
Defined.

(** [PUT /items] with the body [{"id": 1, "title": "x"}]. *)
Lemma exec_only_on_put_witness :
  Method (Fixture.with_body (Fixture.request "PUT" "/items")
            (GoMap (<["id" := GoFloat64 1]> {[ "title" := GoString "x" ]}))) = MethodPut ∧
  trace (Fixture.run Fixture.forward
           (Fixture.with_body (Fixture.request "PUT" "/items")
              (GoMap (<["id" := GoFloat64 1]> {[ "title" := GoString "x" ]})))) =
    [Exec "UPDATE items SET title = $1 WHERE id = $2" [GoString "x"; GoFloat64 1]].
Proof.
  destruct (@exec_only_on_put Fixture.database Fixture.forward Fixture.strconv
              Fixture.explorer
              (Fixture.with_body (Fixture.request "PUT" "/items")
                 (GoMap (<["id" := GoFloat64 1]> {[ "title" := GoString "x" ]})))
              0 "UPDATE items SET title = $1 WHERE id = $2" [GoString "x"; GoFloat64 1])
    as (Hput & _ & Htrace & _).
  - vm_compute. apply list_elem_of_here.
  - split; [exact Hput|exact Htrace].
Defined.

(** [PUT /items] with the body [{"id": 1}]. *)
Lemma put_table_only_id_witness :
  trace (Fixture.run Fixture.forward
           (Fixture.with_body (Fixture.request "PUT" "/items")
              (GoMap {[ "id" := GoFloat64 1 ]}))) =
    [Exec "UPDATE items SET  WHERE id = $1" [GoFloat64 1]].
Proof.
  apply (@put_table_only_id Fixture.database Fixture.forward Fixture.strconv
           Fixture.explorer
           (Fixture.with_body (Fixture.request "PUT" "/items")
              (GoMap {[ "id" := GoFloat64 1 ]}))
           0 "items" {[ "id" := GoFloat64 1 ]} (GoFloat64 1)).
  - vm_compute. reflexivity.
  - discriminate.
  - vm_compute. eauto.
  - reflexivity.
  - reflexivity.
  - vm_compute. reflexivity.
  - intros key Hkey. by rewrite lookup_singleton_ne.
Defined.

(** [GET /items/1] when the metadata lists the columns of [items] twice. *)
Lemma get_record_column_count_mismatch_witness :
  is_http_Error (w (Fixture.run_faulty (Fixture.request "GET" "/items/1")))
    StatusInternalServerError "sql: expected 4 destination arguments in Scan, not 8".
Proof.
  apply (@get_record_column_count_mismatch Fixture.faulty Fixture.forward Fixture.strconv
           Fixture.explorer (Fixture.request "GET" "/items/1") 0 "items" "1"
           (Fixture.result_set ["column_name"]
              ((λ c, [GoString c]) <$> (Fixture.items_columns ++ Fixture.items_columns)))
           (mk_slice (Fixture.items_columns ++ Fixture.items_columns))
           (Fixture.result_set Fixture.items_columns [Fixture.item1])
           Fixture.item1 []).
  - vm_compute. reflexivity.
  - vm_compute. eauto.
  - reflexivity.
  - reflexivity.
  - reflexivity.
  - reflexivity.
  - reflexivity.
  - vm_compute. lia.
Defined.

(** [GET /items] when the second row of the listing is cut short. *)
Lemma get_table_late_errors_witness :
  is_http_Error (w (Fixture.run_faulty (Fixture.request "GET" "/items")))
    StatusInternalServerError "sql: expected 1 destination arguments in Scan, not 4".
Proof.
  destruct (@get_table_late_errors Fixture.faulty Fixture.forward Fixture.strconv
              Fixture.explorer (Fixture.request "GET" "/items") 0 "items"
              (Fixture.result_set Fixture.items_columns [Fixture.item1; [GoInt64 2]]))
    as (_ & Hscan).
  - vm_compute. reflexivity.
  - discriminate.
  - vm_compute. eauto.
  - reflexivity.
  - reflexivity.
  - apply (Hscan Fixture.items_columns [Fixture.item1] [GoInt64 2] []).
    + reflexivity.
    + reflexivity.
    + by repeat constructor.
    + vm_compute. lia.
Defined.

(** [GET /items]: the second record has a null [updated]. *)
Lemma get_table_record_fields_witness :
  ∃ records rowMap,
    is_json_200 (w (Fixture.run Fixture.forward (Fixture.request "GET" "/items")))
      (GoMap {[ "response" := GoMap {[ "records" := GoSlice (mk_slice records) ]} ]}) ∧
    records !! 1 = Some (GoMap rowMap) ∧
    rowMap !! "title" = Some (GoString "memcache") ∧
    rowMap !! "updated" = Some GoNil.
Proof.
  destruct (@get_table_record_fields Fixture.database Fixture.forward Fixture.strconv
              Fixture.explorer (Fixture.request "GET" "/items") 0 "items"
              (Fixture.result_set Fixture.items_columns [Fixture.item1; Fixture.item2])
              Fixture.items_columns)
    as (records & Hjson & Hfields).
  - vm_compute. reflexivity.
  - discriminate.
  - vm_compute. eauto.
  - reflexivity.
  - reflexivity.
  - reflexivity.
  - by repeat constructor.
  - by repeat constructor.
  - discriminate.
  - destruct (Hfields 1 Fixture.item2) as (rowMap & Hrecord & _ & Hlookup); [reflexivity|].
    exists records, rowMap. split_and!; [exact Hjson|exact Hrecord|..].
    + apply (Hlookup 1); [reflexivity..|]. intros [|[|[|[|j]]]] Hj; (lia || discriminate).
    + apply (Hlookup 3); [reflexivity..|]. intros [|[|[|[|j]]]] Hj; (lia || discriminate).
Defined.

(** [GET /items] when the second reading is NaN. *)
Lemma get_table_unencodable_value_witness :
  wroteHeader (w (Fixture.run_readings (Fixture.request "GET" "/items"))) = None ∧
  written (w (Fixture.run_readings (Fixture.request "GET" "/items"))) = [] ∧
  StatusCode (w (Fixture.run_readings (Fixture.request "GET" "/items"))) = StatusOK.
Proof.
  apply (@get_table_unencodable_value Fixture.readings Fixture.forward Fixture.strconv
           Fixture.explorer (Fixture.request "GET" "/items") 0 "items"
           (Fixture.result_set ["id"; "reading"]
              [[GoInt64 1; GoFloat64 1]; [GoInt64 2; GoFloat64 nan]])
           ["id"; "reading"] 1 [GoInt64 2; GoFloat64 nan] 1 (GoFloat64 nan)).
  - vm_compute. reflexivity.
  - discriminate.
  - vm_compute. eauto.
  - reflexivity.
  - reflexivity.
  - reflexivity.
  - by repeat constructor.
  - apply NoDup_cons. split; [|apply NoDup_singleton].
    rewrite elem_of_cons, elem_of_nil. by intros [|[]].
  - reflexivity.
  - reflexivity.
  - reflexivity.
Defined.

(** Start-up on the fixture. *)
Lemma NewDbExplorer_catalog_witness :
  ∃ de,
    (@NewDbExplorer Fixture.database Fixture.strconv 0).1 = inl de ∧
    is_Some (tables de !! "items") ∧
    is_Some (tables de !! "users") ∧
    ¬ is_Some (tables de !! "orders").
Proof.
  destruct (@NewDbExplorer_catalog Fixture.database Fixture.strconv 0
              (Fixture.result_set ["table_name"] [[GoString "items"]; [GoString "users"]])
              ["items"; "users"])
    as (de & Hnew & Hkeys & _).
  - reflexivity.
  - by repeat constructor.
  - exists de. split_and!; [exact Hnew|..].
    + apply Hkeys. apply list_elem_of_here.
    + apply Hkeys. apply list_elem_of_further, list_elem_of_here.
    + intros Hsome%Hkeys. rewrite !elem_of_cons, elem_of_nil in Hsome.
      by destruct Hsome as [|[|]].
Defined.

(** Start-up when the second table name is NULL. *)
Lemma NewDbExplorer_fails_witness :
  (@NewDbExplorer Fixture.faulty Fixture.strconv 0).1 =
    inr (errorString ("sql: Scan error on column index 0, name " +:+ quoted "table_name" +:+
                      ": converting NULL to string is unsupported")).
Proof.
  destruct (@NewDbExplorer_fails Fixture.faulty Fixture.strconv 0) as (_ & Hscan).
  apply (Hscan (Fixture.result_set ["table_name"]
                  [[GoString "items"]; [GoNil]; [GoString "users"]])
               [[GoString "items"]] ["items"] [GoNil] [[GoString "users"]]).
  - reflexivity.
  - reflexivity.
  - by repeat constructor.
  - reflexivity.
Defined.

(** [GET /items/1], served first and served after five other requests. *)
Lemma reads_repeatable_witness :
  w (@serve Fixture.database Fixture.forward Fixture.strconv Fixture.explorer
       (Fixture.request "GET" "/items/1") 0) =
  w (@serve Fixture.database Fixture.forward Fixture.strconv Fixture.explorer
       (Fixture.request "GET" "/items/1") 5).
Proof.
  apply (@reads_repeatable Fixture.database Fixture.forward Fixture.strconv
           Fixture.explorer (Fixture.request "GET" "/items/1") 0 5).
  - intros query args c1 c2. reflexivity.
  - discriminate.
Defined.

End examples.
